(** * nonebot-plugin-multincm: expiring cache, request wrapper, pager and login

    A shallow embedding of the three source files of the plugin

    - [msg_cache.py]      (module [MsgCache]),
    - [data_source.py]    (module [DataSource]),
    - [providers/song.py] (module [SongProvider]),

    together with the statements of the specification that were checked
    against them.  Python integers are [Z]; dictionaries received from the
    remote service are association lists of [pyval]; the cache, a [dict]
    subclass keyed by hashable keys, is a [gmap]; raised exceptions are the
    [Raise] branch of [result]. *)

From Stdlib Require Import ZArith Lia.
From stdpp Require Import gmap strings list fin_maps pretty.

Local Open Scope Z_scope.
Local Open Scope string_scope.

(** ** Python values, exceptions and results *)

Module Py.

(** JSON-like values as the remote client hands them over. *)
#[warnings="-register-all"]
Inductive pyval : Type :=
| PNone
| PBool (b : bool)
| PInt (z : Z)
| PStr (s : string)
| PList (l : list pyval)
| PDict (d : list (string * pyval)).

Abbreviation pydict := (list (string * pyval)).

(** The exception classes that occur in the three files.  [ValidationError]
    is pydantic's, a subclass of [ValueError]; [OtherError] stands for
    whatever a remote client function raises by itself. *)
Inductive exn : Type :=
| RuntimeError (msg : string)
| ValueError (msg : string)
| ValidationError (msg : string)
| KeyError (key : string)
| IndexError
| TypeError
| AttributeError
| AssertionError
| OtherError (msg : string).

(** [except ValueError] catches the class and its subclasses. *)
Definition is_ValueError (e : exn) : bool :=
  match e with
  | ValueError _ | ValidationError _ => true
  | _ => false
  end.

Inductive result (A : Type) : Type :=
| Ok (a : A)
| Raise (e : exn).
Arguments Ok {A} a.
Arguments Raise {A} e.

Definition bind {A B} (r : result A) (k : A -> result B) : result B :=
  match r with
  | Ok a => k a
  | Raise e => Raise e
  end.

Declare Scope py_scope.
Delimit Scope py_scope with py.
Notation "x <- c1 ;; c2" := (bind c1 (fun x => c2))
  (at level 100, c1 at next level, right associativity) : py_scope.

(** [d.get(key)]: [None] when the key is absent. *)
Fixpoint dict_get (key : string) (d : pydict) : option pyval :=
  match d with
  | [] => None
  | (k, v) :: rest => if String.eqb k key then Some v else dict_get key rest
  end.

(** [d[key]]: raises [KeyError] when the key is absent. *)
Definition dict_item (key : string) (d : pydict) : result pyval :=
  match dict_get key d with
  | Some v => Ok v
  | None => Raise (KeyError key)
  end.

(** [v == n] for an integer literal [n].  [True == 1] and [False == 0]
    hold in Python; strings, [None] and containers never equal a number. *)
Definition eq_int (v : pyval) (n : Z) : bool :=
  match v with
  | PInt z => Z.eqb z n
  | PBool b => Z.eqb (if b then 1 else 0) n
  | _ => false
  end.

(** Truth value of an object, as tested by [if], [not] and [assert]. *)
Definition truthy (v : pyval) : bool :=
  match v with
  | PNone => false
  | PBool b => b
  | PInt z => negb (Z.eqb z 0)
  | PStr s => negb (String.eqb s "")
  | PList l => match l with [] => false | _ => true end
  | PDict d => match d with [] => false | _ => true end
  end.

(** Truth value of an [Optional[str]] configuration entry. *)
Definition truthy_opt_str (o : option string) : bool :=
  match o with
  | Some s => negb (String.eqb s "")
  | None => false
  end.

(** [o or ""]. *)
Definition or_empty (o : option string) : string :=
  match o with
  | Some s => s
  | None => ""
  end.

(** [l[0]]. *)
Definition list_item0 {A} (l : list A) : result A :=
  match l with
  | x :: _ => Ok x
  | [] => Raise IndexError
  end.

(** [s1 in s]: [needle] occurs in [s] as a contiguous piece. *)
Definition contains (s needle : string) : Prop :=
  exists pre post, s = pre ++ needle ++ post.

End Py.
Import Py.

(** ** config.py

    The configuration object is declared outside the three files; these
    are the options they read. *)

Record Config : Type := {
  ncm_list_limit : Z;
  ncm_msg_cache_time : Z;
  ncm_max_name_len : Z;
  ncm_max_artist_len : Z;
  ncm_ctcode : Z;
  ncm_phone : option string;
  ncm_email : option string;
  ncm_password : option string;
  ncm_password_hash : option string
}.

(** ** msg_cache.py *)

Module MsgCache.

(** [SongType = Literal["song", "voice"]] and the dataclass [SongCache]. *)
Inductive SongType : Type := song | voice.

Record SongCache : Type := {
  cache_id : Z;
  cache_type : SongType
}.

Section CacheManager.

Context {KT : Type} `{Countable KT} {VT : Type}.

Variable config : Config.

(** [CacheManager(Generic[KT, VT], Dict[KT, Tuple[float, VT]])]: the
    underlying dictionary, a [gmap KT (Z * VT)], stores
    [(insertion time, value)].  Readings of [time.time()] are passed in
    explicitly and counted in integer clock units. *)

(** [__getitem__]: [super().__getitem__(key)[1]]; [None] is the
    [KeyError] of an absent key. *)
Definition getitem (self : gmap KT (Z * VT)) (key : KT) : option VT :=
  match self !! key with
  | Some it => Some (snd it)
  | None => None
  end.

(** [get(key, default=None)]: [it = super().get(key)];
    [it[1] if it else default].  A stored pair is a non-empty tuple and so
    always true; the result is an [Optional[VT]]. *)
Definition get (self : gmap KT (Z * VT)) (key : KT) (default : option VT)
  : option VT :=
  match self !! key with
  | Some it => Some (snd it)
  | None => default
  end.

(** [__setitem__]: [super().__setitem__(key, (time.time(), value))]. *)
Definition setitem (now : Z) (self : gmap KT (Z * VT)) (key : KT) (value : VT)
  : gmap KT (Z * VT) :=
  <[key := (now, value)]> self.

(** [set(key, value)] calls [__setitem__]. *)
Definition set (now : Z) (self : gmap KT (Z * VT)) (key : KT) (value : VT)
  : gmap KT (Z * VT) :=
  setitem now self key value.

(** [dict.pop(key)] of the base class: raises [KeyError] on an absent key. *)
Definition super_pop (self : gmap KT (Z * VT)) (key : KT)
  : option ((Z * VT) * gmap KT (Z * VT)) :=
  match self !! key with
  | Some it => Some (it, delete key self)
  | None => None
  end.

(** [pop(key, default=None)]: [try: return super().pop(key)[1]]
    [except KeyError: return default].  Returns the value and the cache
    after the call. *)
Definition pop (self : gmap KT (Z * VT)) (key : KT) (default : option VT)
  : option VT * gmap KT (Z * VT) :=
  match super_pop self key with
  | Some (it, self') => (Some (snd it), self')
  | None => (default, self)
  end.

(** [del self[k]]: [dict.__delitem__], which raises [KeyError] when the key
    is absent. *)
Definition delitem (self : gmap KT (Z * VT)) (key : KT)
  : option (gmap KT (Z * VT)) :=
  match self !! key with
  | Some _ => Some (delete key self)
  | None => None
  end.

(** The loop of [clear_expired] over the snapshot [self.copy().items()];
    [None] is an escaping [KeyError] of [del self[k]]. *)
Fixpoint sweep (now_t : Z) (snapshot : list (KT * (Z * VT)))
  (self : gmap KT (Z * VT)) : option (gmap KT (Z * VT)) :=
  match snapshot with
  | [] => Some self
  | (k, (create_t, _)) :: rest =>
      if Z.geb (now_t - create_t) (ncm_msg_cache_time config)
      then match delitem self k with
           | Some self' => sweep now_t rest self'
           | None => None
           end
      else sweep now_t rest self
  end.

(** [clear_expired]: [now_t = time.time()], then the loop over a copy.
    [dict.copy()] gives a plain [dict], so its [items()] are the stored
    [(key, (time, value))] pairs in some order without repeated keys. *)
Definition clear_expired (now_t : Z) (self : gmap KT (Z * VT))
  : option (gmap KT (Z * VT)) :=
  sweep now_t (map_to_list self) self.

(** [items()]: [for k, v in super().items(): yield k, v[1]].  The list is
    what the generator yields when it is run through at once; the order is
    the dictionary's, which the map does not record. *)
Definition items (self : gmap KT (Z * VT)) : list (KT * VT) :=
  (fun kv => (fst kv, snd (snd kv))) <$> map_to_list self.

(** [values()]: [for v in super().values(): yield v[1]]. *)
Definition values (self : gmap KT (Z * VT)) : list VT :=
  (fun kv => snd (snd kv)) <$> map_to_list self.

End CacheManager.

End MsgCache.

(** ** data_source.py *)

Module DataSource.

(** [types.Privilege], as the constructor call
    [Privilege(id=song_id, pl=128000)] of [get_track_info] fills it. *)
Record Privilege : Type := {
  id : Z;
  pl : Z
}.

(** [types.Song]: the fields of the remote song record plus the
    [privilege] keyword given to the constructor. *)
Record SongModel : Type := {
  song_fields : pydict;
  privilege : Privilege
}.

(** [types.SongSearchResult]: the attributes read by [providers/song.py]. *)
Record SongSearchResult : Type := {
  songs : option (list SongModel);
  songCount : Z
}.

(** A remote client function: its [__name__] and what a call returns or
    raises. *)
Record Api (A : Type) : Type := {
  api_name : string;
  api_call : A -> result pyval
}.
Arguments api_name {A} _.
Arguments api_call {A} _ _.

(** Keyword arguments of [GetSearchResult] as [search_song] passes them. *)
Record SearchArgs : Type := {
  arg_keyword : string;
  arg_limit : Z;
  arg_offset : Z;
  arg_kwargs : pydict
}.

(** The pyncm session object; only its serialised form and the two
    attributes logged after a successful login matter here. *)
Record Session : Type := {
  nickname : string;
  uid : Z
}.

(** What [login] calls, in call order. *)
Inductive Event : Type :=
| EvLoadSessionFromString
| EvLoginViaCellphone
| EvLoginViaEmail
| EvLoginViaAnonymousAccount
| EvWriteSession
| EvGetCurrentLoginStatus
| EvUnlink.

#[global] Instance Event_eq_dec : EqDecision Event.
Proof. solve_decision. Defined.

(** The state [login] reads and writes: the file [SESSION_FILE] (absent, or
    its text), pyncm's current session, and the calls made so far (newest
    first). *)
Record World : Type := {
  session_file : option string;
  current_session : Session;
  events : list Event
}.

(** The collaborators imported by the three files: configuration, pyncm,
    pydantic validation, [str()] of a response and the cell formatters of
    [utils]. *)
Record Env : Type := {
  config : Config;
  py_str : pyval -> string;
  (* pydantic: Privilege( **x), validation of Song( **x, ...), and
     SongSearchResult( **x) *)
  parse_Privilege : pyval -> result Privilege;
  Song_valid : pydict -> bool;
  parse_SongSearchResult : pyval -> result SongSearchResult;
  (* truth value of a types.Song instance *)
  Song_bool : SongModel -> bool;
  (* pyncm.apis *)
  GetSearchResult : Api SearchArgs;
  GetTrackDetail : Api (list Z * pydict);
  LoginViaCellphone : Z -> string -> string -> string -> World -> result Session;
  LoginViaEmail : string -> string -> string -> World -> result Session;
  LoginViaAnonymousAccount : World -> result Session;
  GetCurrentLoginStatus : World -> result pyval;
  LoadSessionFromString : string -> result Session;
  DumpSessionAsString : Session -> string;
  (* utils: format_alias(x.name, x.alia), format_artists(x.ar),
     format_time(x.dt), and int(x.pop) printed *)
  name_cell : SongModel -> string;
  artists_cell : SongModel -> string;
  time_cell : SongModel -> string;
  pop_cell : SongModel -> string
}.

Section WithEnv.

Variable env : Env.

Local Open Scope py_scope.

(** [get_offset_by_page_num(page, limit=config.ncm_list_limit)]. *)
Definition get_offset_by_page_num (page : Z) (limit : Z) : Z :=
  limit * (page - 1).

(** The text of the [RuntimeError] of [ncm_request]: the f-string with the
    call's name and [str(ret)]. *)
Definition request_failed_msg (name : string) (ret : pyval) : string :=
  "请求 " ++ name ++ " 失败" ++ String (Ascii.ascii_of_nat 10) (py_str env ret).

(** [ncm_request(api, *args, **kwargs)].  The call may raise by itself;
    [ret.get] needs a dictionary. *)
Definition ncm_request {A} (api : Api A) (args : A) : result pydict :=
  ret <- api_call api args ;;
  match ret with
  | PDict d =>
      if negb (eq_int (default (PInt 200) (dict_get "code" d)) 200)
      then Raise (RuntimeError (request_failed_msg (api_name api) ret))
      else Ok d
  | _ => Raise AttributeError
  end.

(** The keyword arguments [search_song] gives to [GetSearchResult]. *)
Definition search_song_args (keyword : string) (page : Z) (kwargs : pydict)
  : SearchArgs :=
  let offset := get_offset_by_page_num page (ncm_list_limit (config env)) in
  {| arg_keyword := keyword;
     arg_limit := ncm_list_limit (config env);
     arg_offset := offset;
     arg_kwargs := kwargs |}.

(** [search_song(keyword, page=1, **kwargs)]. *)
Definition search_song (keyword : string) (page : Z) (kwargs : pydict)
  : result SongSearchResult :=
  res <- ncm_request (GetSearchResult env) (search_song_args keyword page kwargs) ;;
  r <- dict_item "result" res ;;
  parse_SongSearchResult env r.

(** [o or 0] for an integer. *)
Definition or_zero (o : Z) : Z := if Z.eqb o 0 then 0 else o.

(** The request body that the closure [SearchVoice] of [search_voice]
    builds for ["/api/search/voice/get"]. *)
Definition search_voice_payload (keyword : string) (page : Z) : pydict :=
  let offset := get_offset_by_page_num page (ncm_list_limit (config env)) in
  [ ("keyword", PStr keyword);
    ("scene", PStr "normal");
    ("limit", PInt (ncm_list_limit (config env)));
    ("offset", PInt (or_zero offset)) ].

(** [[f(x) for x in v]] for a value that has to be a list. *)
Fixpoint map_result {A B} (f : A -> result B) (l : list A) : result (list B) :=
  match l with
  | [] => Ok []
  | x :: rest =>
      y <- f x ;;
      ys <- map_result f rest ;;
      Ok (y :: ys)
  end.

(** What [for x in v] runs over: the elements of a list, the keys of a
    dictionary, the characters of a string (one per byte here; each is a
    string either way); any other value is not iterable. *)
Definition as_list (v : pyval) : result (list pyval) :=
  match v with
  | PList l => Ok l
  | PDict d => Ok (map (fun kv => PStr (fst kv)) d)
  | PStr s => Ok (map (fun c => PStr (String c "")) (String.list_ascii_of_string s))
  | _ => Raise TypeError
  end.

(** [{y.id: y for y in ps}]: a later record replaces an earlier one with
    the same id. *)
Definition privileges_by_id (ps : list Privilege) : gmap Z Privilege :=
  foldl (fun m y => <[id y := y]> m) ∅ ps.

(** The [privilege] keyword of one song:
    [privileges[song_id] if (song_id := x["id"]) in privileges else
    Privilege(id=song_id, pl=128000)].  The keys of [privileges] are
    integers.  An integer id is looked up, and without a record the
    constructor gives the record of these two fields; [True] and [False]
    are looked up as 1 and 0, which they equal and hash as; a string or
    [None] equals no key; a list or a dictionary cannot be hashed.  Where
    the id is no integer, [Privilege(id=song_id, pl=128000)] is what the
    validation of these two keywords gives. *)
Definition song_privilege (privileges : gmap Z Privilege) (v : pyval)
  : result Privilege :=
  let validated := parse_Privilege env (PDict [("id", v); ("pl", PInt 128000)]) in
  match v with
  | PInt song_id =>
      Ok (match privileges !! song_id with
          | Some y => y
          | None => {| id := song_id; pl := 128000 |}
          end)
  | PBool b =>
      match privileges !! (if b then 1 else 0) with
      | Some y => Ok y
      | None => validated
      end
  | PNone | PStr _ => validated
  | PList _ | PDict _ => Raise TypeError
  end.

(** One element of the comprehension of [get_track_info]:
    [Song( **x, privilege=...)].  [x] has to be a mapping and to have an
    [id]; the privilege is computed before the call, where a second
    [privilege] keyword is a [TypeError]. *)
Definition build_song (privileges : gmap Z Privilege) (x : pyval)
  : result SongModel :=
  match x with
  | PDict d =>
      v <- dict_item "id" d ;;
      p <- song_privilege privileges v ;;
      match dict_get "privilege" d with
      | Some _ => Raise TypeError
      | None =>
          if Song_valid env d
          then Ok {| song_fields := d; privilege := p |}
          else Raise (ValidationError "Song")
      end
  | _ => Raise TypeError
  end.

(** [get_track_info(ids, **kwargs)]. *)
Definition get_track_info (ids : list Z) (kwargs : pydict)
  : result (list SongModel) :=
  res <- ncm_request (GetTrackDetail env) (ids, kwargs) ;;
  raw <- dict_item "privileges" res ;;
  raw_list <- as_list raw ;;
  ps <- map_result (parse_Privilege env) raw_list ;;
  let privileges := privileges_by_id ps in
  raw_songs <- dict_item "songs" res ;;
  song_list <- as_list raw_songs ;;
  map_result (build_song privileges) song_list.

(** *** login *)

Definition record (e : Event) (w : World) : World :=
  {| session_file := session_file w;
     current_session := current_session w;
     events := e :: events w |}.

(** [SetCurrentSession(s)], also the effect of a successful login call. *)
Definition SetCurrentSession (s : Session) (w : World) : World :=
  {| session_file := session_file w;
     current_session := s;
     events := events w |}.

(** [anyio.Path(SESSION_FILE).write_text(text)]. *)
Definition write_session_file (text : string) (w : World) : World :=
  record EvWriteSession
    {| session_file := Some text;
       current_session := current_session w;
       events := events w |}.

(** [if await pth.exists(): await pth.unlink()]. *)
Definition unlink_if_exists (w : World) : World :=
  match session_file w with
  | Some _ =>
      record EvUnlink
        {| session_file := None;
           current_session := current_session w;
           events := events w |}
  | None => w
  end.

(** [(config.ncm_phone or config.ncm_email) and
    (config.ncm_password or config.ncm_password_hash)]. *)
Definition has_credentials : bool :=
  (truthy_opt_str (ncm_phone (config env)) || truthy_opt_str (ncm_email (config env)))
  && (truthy_opt_str (ncm_password (config env))
      || truthy_opt_str (ncm_password_hash (config env))).

(** A login call of pyncm: on success the session it built is current. *)
Definition run_login (e : Event) (call : World -> result Session) (w : World)
  : result World :=
  let w1 := record e w in
  s <- call w1 ;;
  Ok (SetCurrentSession s w1).

(** The [if]/[elif]/[else] at the head of [login]: restore the session
    from the file, or log in with the configured account and write the
    file, or log in as a guest.  Returns the value of [retry] after it; an
    exception of a client call or of [LoadSessionFromString] leaves
    [login] with the state as it was before the call. *)
Definition establish (retry : bool) (w : World) : result (bool * World) :=
  match session_file w with
  | Some text =>
      let w1 := record EvLoadSessionFromString w in
      s <- LoadSessionFromString env text ;;
      Ok (retry, SetCurrentSession s w1)
  | None =>
      if has_credentials then
        let password := or_empty (ncm_password (config env)) in
        let password_hash := or_empty (ncm_password_hash (config env)) in
        w1 <- (if truthy_opt_str (ncm_phone (config env))
               then run_login EvLoginViaCellphone
                      (LoginViaCellphone env (ncm_ctcode (config env))
                         (or_empty (ncm_phone (config env))) password password_hash) w
               else run_login EvLoginViaEmail
                      (LoginViaEmail env (or_empty (ncm_email (config env)))
                         password password_hash) w) ;;
        Ok (false,
            write_session_file (DumpSessionAsString env (current_session w1)) w1)
      else
        w1 <- run_login EvLoginViaAnonymousAccount (LoginViaAnonymousAccount env) w ;;
        Ok (false, w1)
  end.

(** The body of the [try]: the status call and the two assertions. *)
Definition check_login_status (w : World) : result unit :=
  ret <- GetCurrentLoginStatus env w ;;
  match ret with
  | PDict d =>
      code <- dict_item "code" d ;;
      if eq_int code 200 then
        account <- dict_item "account" d ;;
        if truthy account then Ok tt else Raise AssertionError
      else Raise AssertionError
  | _ => Raise TypeError
  end.

(** Whether the [try] of [login] ends without an exception. *)
Definition verified (w : World) : bool :=
  match check_login_status w with
  | Ok _ => true
  | Raise _ => false
  end.

Definition login_state_error : exn :=
  RuntimeError "登录态异常，请重新登录".

(** [login(retry=True)].  The function calls itself; [fuel] bounds the
    depth of the calls and [None] means that it ran out. *)
Fixpoint login (fuel : nat) (retry : bool) (w : World)
  : option (result unit * World) :=
  match fuel with
  | O => None
  | S fuel' =>
      match establish retry w with
      | Raise e => Some (Raise e, w)
      | Ok (retry1, w1) =>
          let w2 := record EvGetCurrentLoginStatus w1 in
          if verified w1 then Some (Ok tt, w2)
          else
            let w3 := unlink_if_exists w2 in
            if retry1 then login fuel' false w3
            else Some (Raise login_state_error, w3)
      end
  end.

(** How often the log shows an event. *)
Definition count_event (e : Event) (w : World) : nat :=
  length (filter (fun x => x = e) (events w)).

(** Completed remote login calls in the log. *)
Definition logins (w : World) : nat :=
  count_event EvLoginViaCellphone w + count_event EvLoginViaEmail w
  + count_event EvLoginViaAnonymousAccount w.

End WithEnv.

End DataSource.

(** ** providers/song.py *)

Module SongProvider.

Import DataSource.

(** [draw.TableHead], [draw.Table] and [draw.SearchResp], as their
    constructors are called. *)
Record TableHead : Type := {
  head_title : string;
  head_align : option string;
  head_max_width : option Z
}.

Record Table : Type := {
  table_heads : list TableHead;
  table_rows : list (list string)
}.

Record SearchResp : Type := {
  resp_table : Table;
  resp_calling : string;
  resp_page : Z;
  resp_total : Z
}.

(** The class [Song(BaseSong[SongModel])]: a wrapper around the model. *)
Record Song : Type := {
  info : SongModel
}.

Definition CALLING : string := "歌曲".

Section WithEnv.

Variable env : Env.

Local Open Scope py_scope.

(** [Song.from_id(song_id)]. *)
Definition from_id (song_id : Z) : result Song :=
  l <- get_track_info env [song_id] [] ;;
  i <- list_item0 l ;;
  if negb (Song_bool env i)
  then Raise (ValueError "Song not found")
  else Ok {| info := i |}.

(** [SongSearcher.search_by_id(arg_id)]: [None] on a [ValueError], every
    other exception leaves the method. *)
Definition search_by_id (arg_id : Z) : result (option Song) :=
  match from_id arg_id with
  | Ok s => Ok (Some s)
  | Raise e => if is_ValueError e then Ok None else Raise e
  end.

(** Modelled from the spec: [BaseSearcher._calc_index_offset] lives in
    [providers/base.py], which is not among the sources.  The spec numbers
    the rows from the pagination offset plus one. *)
Definition _calc_index_offset (page : Z) : Z :=
  get_offset_by_page_num page (ncm_list_limit (config env)) + 1.

(** [enumerate(l, start)]. *)
Fixpoint enumerate {A} (l : list A) (start : Z) : list (Z * A) :=
  match l with
  | [] => []
  | x :: rest => (start, x) :: enumerate rest (start + 1)
  end.

(** The first cell of a row, [f"[b]{i}[/b]"]. *)
Definition rank_cell (i : Z) : string :=
  "[b]" ++ pretty i ++ "[/b]".

Definition build_row (ix : Z * SongModel) : list string :=
  let (i, x) := ix in
  [ rank_cell i; name_cell env x; artists_cell env x; time_cell env x;
    pop_cell env x ].

Definition table_head : list TableHead :=
  [ {| head_title := "序号"; head_align := Some "right"; head_max_width := None |};
    {| head_title := "歌名"; head_align := None;
       head_max_width := Some (ncm_max_name_len (config env)) |};
    {| head_title := "歌手"; head_align := None;
       head_max_width := Some (ncm_max_artist_len (config env)) |};
    {| head_title := "时长"; head_align := Some "center"; head_max_width := None |};
    {| head_title := "热度"; head_align := Some "center"; head_max_width := None |} ].

(** [SongSearcher._build_search_resp(resp, page)]. *)
Definition _build_search_resp (resp : SongSearchResult) (page : Z)
  : result SearchResp :=
  match songs resp with
  | None | Some [] => Raise (ValueError "No song in raw response")
  | Some l =>
      let table :=
        {| table_heads := table_head;
           table_rows := map build_row (enumerate l (_calc_index_offset page)) |} in
      Ok {| resp_table := table;
            resp_calling := CALLING;
            resp_page := page;
            resp_total := songCount resp |}
  end.

End WithEnv.

End SongProvider.

(** * Sample inputs

    Concrete configurations, caches and remote behaviours on which the
    statements below are run. *)

Module Samples.

Import MsgCache DataSource SongProvider.

(** Page size 20 and a cache lifetime of 60 clock units; no account. *)
Definition config_guest : Config :=
  {| ncm_list_limit := 20;
     ncm_msg_cache_time := 60;
     ncm_max_name_len := 600;
     ncm_max_artist_len := 400;
     ncm_ctcode := 86;
     ncm_phone := None;
     ncm_email := None;
     ncm_password := None;
     ncm_password_hash := None |}.

Definition song_a : SongCache := {| cache_id := 11; cache_type := song |}.
Definition song_b : SongCache := {| cache_id := 22; cache_type := voice |}.

(** Message 1 cached at time 100, message 2 at time 150. *)
Definition cache_two : gmap Z (Z * SongCache) :=
  set 150 (set 100 ∅ 1 song_a) 2 song_b.

(** [str()] of a response, without the escaping of quotes inside strings. *)
Fixpoint py_str (v : pyval) : string :=
  match v with
  | PNone => "None"
  | PBool b => if b then "True" else "False"
  | PInt z => pretty z
  | PStr s => "'" ++ s ++ "'"
  | PList l =>
      "[" ++ (fix items (l : list pyval) : string :=
                match l with
                | [] => ""
                | x :: [] => py_str x
                | x :: rest => py_str x ++ ", " ++ items rest
                end) l ++ "]"
  | PDict d =>
      "{" ++ (fix items (d : list (string * pyval)) : string :=
                match d with
                | [] => ""
                | (k, x) :: [] => "'" ++ k ++ "': " ++ py_str x
                | (k, x) :: rest => "'" ++ k ++ "': " ++ py_str x ++ ", " ++ items rest
                end) d ++ "}"
  end.

(** Validation of a privilege record: integer [id] and [pl]. *)
Definition parse_Privilege (x : pyval) : result Privilege :=
  match x with
  | PDict d =>
      match dict_get "id" d, dict_get "pl" d with
      | Some (PInt i), Some (PInt p) => Ok {| id := i; pl := p |}
      | _, _ => Raise (ValidationError "Privilege")
      end
  | _ => Raise TypeError
  end.

(** Validation of a search result: a song count and no song list. *)
Definition parse_SongSearchResult (x : pyval) : result SongSearchResult :=
  match x with
  | PDict d =>
      match dict_get "songCount" d with
      | Some (PInt n) => Ok {| songs := None; songCount := n |}
      | _ => Raise (ValidationError "SongSearchResult")
      end
  | _ => Raise TypeError
  end.

Definition text_field (key : string) (x : SongModel) : string :=
  match dict_get key (song_fields x) with
  | Some (PStr s) => s
  | _ => ""
  end.

Definition fresh_session : Session := {| nickname := "fresh"; uid := 7 |}.
Definition guest_session : Session := {| nickname := "guest"; uid := 0 |}.

(** A remote service that answers the detail call with [detail], every
    search with an empty result, and the login status call with [status];
    a session restored from the file carries the file's text as nickname. *)
Definition remote (cfg : Config) (detail : result pyval)
  (status : World -> result pyval) : Env :=
  {| config := cfg;
     DataSource.py_str := py_str;
     DataSource.parse_Privilege := parse_Privilege;
     Song_valid := fun _ => true;
     DataSource.parse_SongSearchResult := parse_SongSearchResult;
     Song_bool := fun _ => true;
     GetSearchResult :=
       {| api_name := "GetSearchResult";
          api_call := fun _ =>
            Ok (PDict [("code", PInt 200);
                       ("result", PDict [("songCount", PInt 0)])]) |};
     GetTrackDetail :=
       {| api_name := "GetTrackDetail"; api_call := fun _ => detail |};
     LoginViaCellphone := fun _ _ _ _ _ => Ok fresh_session;
     LoginViaEmail := fun _ _ _ _ => Ok fresh_session;
     LoginViaAnonymousAccount := fun _ => Ok guest_session;
     GetCurrentLoginStatus := status;
     LoadSessionFromString := fun text => Ok {| nickname := text; uid := 1 |};
     DumpSessionAsString := nickname;
     name_cell := text_field "name";
     artists_cell := text_field "artists";
     time_cell := text_field "time";
     pop_cell := text_field "pop" |}.

Definition status_ok : pyval :=
  PDict [("code", PInt 200); ("account", PDict [("id", PInt 7)])].

Definition status_no_account : pyval :=
  PDict [("code", PInt 200); ("account", PNone)].

(** The detail call fails remotely: code 400. *)
Definition detail_failed : pyval :=
  PDict [("code", PInt 400); ("msg", PStr "bad request")].

(** The answer to a detail call for an id that no entry has. *)
Definition detail_unknown_id : pyval :=
  PDict [("songs", PList []); ("privileges", PList []); ("code", PInt 200)].

(** Two songs; only the first has a privilege record. *)
Definition detail_two_songs : pyval :=
  PDict [("songs", PList [PDict [("id", PInt 5); ("name", PStr "five")];
                          PDict [("id", PInt 6); ("name", PStr "six")]]);
         ("privileges", PList [PDict [("id", PInt 5); ("pl", PInt 320000)]]);
         ("code", PInt 200)].

(** The same without a response code. *)
Definition detail_no_code : pyval :=
  PDict [("songs", PList [PDict [("id", PInt 6); ("name", PStr "six")]]);
         ("privileges", PList [])].

Definition always (v : pyval) : World -> result pyval := fun _ => Ok v.

(** The status call accepts every session but one restored from the file
    text ["stale"]. *)
Definition rejects_stale : World -> result pyval :=
  fun w =>
    if String.eqb (nickname (current_session w)) "stale"
    then Ok status_no_account
    else Ok status_ok.

Definition config_phone : Config :=
  {| ncm_list_limit := 20;
     ncm_msg_cache_time := 60;
     ncm_max_name_len := 600;
     ncm_max_artist_len := 400;
     ncm_ctcode := 86;
     ncm_phone := Some "13800000000";
     ncm_email := None;
     ncm_password := Some "secret";
     ncm_password_hash := None |}.

Definition default_session : Session := {| nickname := ""; uid := 0 |}.

(** Startup with a stale session file. *)
Definition world_stale : World :=
  {| session_file := Some "stale";
     current_session := default_session;
     events := [] |}.

(** The third page of a search, two songs on it. *)
Definition result_page : SongSearchResult :=
  {| songs :=
       Some [ {| song_fields := [("id", PInt 5); ("name", PStr "five")];
                 privilege := {| id := 5; pl := 320000 |} |};
              {| song_fields := [("id", PInt 6); ("name", PStr "six")];
                 privilege := {| id := 6; pl := 128000 |} |} ];
     songCount := 42 |}.

(** Startup without a session file. *)
Definition world_clean : World :=
  {| session_file := None;
     current_session := default_session;
     events := [] |}.

(** The same service with a session file that [LoadSessionFromString]
    cannot read. *)
Definition remote_unreadable (cfg : Config) (status : World -> result pyval)
  : Env :=
  let base := remote cfg (Ok detail_failed) status in
  {| config := config base;
     DataSource.py_str := DataSource.py_str base;
     DataSource.parse_Privilege := DataSource.parse_Privilege base;
     Song_valid := Song_valid base;
     DataSource.parse_SongSearchResult := DataSource.parse_SongSearchResult base;
     Song_bool := Song_bool base;
     GetSearchResult := GetSearchResult base;
     GetTrackDetail := GetTrackDetail base;
     LoginViaCellphone := LoginViaCellphone base;
     LoginViaEmail := LoginViaEmail base;
     LoginViaAnonymousAccount := LoginViaAnonymousAccount base;
     GetCurrentLoginStatus := GetCurrentLoginStatus base;
     LoadSessionFromString := fun _ => Raise (OtherError "bad session text");
     DumpSessionAsString := DumpSessionAsString base;
     name_cell := name_cell base;
     artists_cell := artists_cell base;
     time_cell := time_cell base;
     pop_cell := pop_cell base |}.

(** Two privilege records for song 5; the later one is the better tier. *)
Definition detail_two_records : pyval :=
  PDict [("songs", PList [PDict [("id", PInt 5); ("name", PStr "five")]]);
         ("privileges", PList [PDict [("id", PInt 5); ("pl", PInt 128000)];
                               PDict [("id", PInt 5); ("pl", PInt 999000)]]);
         ("code", PInt 200)].

(** A successful answer that carries neither songs nor privileges. *)
Definition detail_bare : pyval := PDict [("code", PInt 200)].

End Samples.

(** * Properties *)

(** ** The expiring cache *)

Section CacheProperties.

Import MsgCache.

Context {KT : Type} `{Countable KT} {VT : Type}.

Variable config : Config.

Implicit Types (self : gmap KT (Z * VT)) (k : KT) (v : VT) (t now : Z).

Lemma get_present self k t v d :
  self !! k = Some (t, v) -> get self k d = Some v.
Proof. intros E. unfold get. now rewrite E. Qed.

Lemma get_absent self k d : self !! k = None -> get self k d = d.
Proof. intros E. unfold get. now rewrite E. Qed.

Lemma set_lookup now self k v : set now self k v !! k = Some (now, v).
Proof. unfold set, setitem. apply lookup_insert_eq. Qed.

Lemma set_lookup_other now self k k' v :
  k <> k' -> set now self k v !! k' = self !! k'.
Proof. intros Hne. unfold set, setitem. now apply lookup_insert_ne. Qed.

Lemma delitem_present self k it :
  self !! k = Some it -> delitem self k = Some (delete k self).
Proof. intros E. unfold delitem. now rewrite E. Qed.

(** The loop, for any snapshot whose keys are distinct and whose entries
    are those of the live dictionary: it never meets a missing key, removes
    the expired entries of the snapshot and leaves every other key as it
    was. *)
Lemma sweep_spec now (snapshot : list (KT * (Z * VT))) :
  forall self,
    NoDup (snapshot.*1) ->
    (forall k it, (k, it) ∈ snapshot -> self !! k = Some it) ->
    exists self',
      sweep config now snapshot self = Some self' /\
      (forall k it, (k, it) ∈ snapshot ->
         ncm_msg_cache_time config <= now - it.1 -> self' !! k = None) /\
      (forall k,
         (forall it, (k, it) ∈ snapshot ->
            now - it.1 < ncm_msg_cache_time config) ->
         self' !! k = self !! k).
Proof.
  induction snapshot as [|[k0 [t0 v0]] rest IH]; intros self Hnd Hin.
  - exists self. split; [reflexivity|]. split.
    + intros k it Hk. now apply elem_of_nil in Hk.
    + reflexivity.
  - rewrite fmap_cons in Hnd. apply NoDup_cons in Hnd as [Hk0 Hnd].
    assert (Hfresh : forall it, (k0, it) ∉ rest).
    { intros it Hit. apply Hk0. apply list_elem_of_fmap.
      now exists (k0, it). }
    cbn [sweep].
    destruct (Z.geb_spec (now - t0) (ncm_msg_cache_time config)) as [Hexp|Hlive].
    + rewrite (delitem_present self k0 (t0, v0))
        by (apply Hin; apply list_elem_of_here).
      destruct (IH (delete k0 self) Hnd) as (self' & Hrun & Hgone & Hkeep).
      { intros k it Hk. rewrite lookup_delete_ne.
        - apply Hin. now apply list_elem_of_further.
        - intros ->. now apply (Hfresh it). }
      exists self'. split; [exact Hrun|]. split.
      * intros k it Hk Hold. apply elem_of_cons in Hk as [Heq|Hk].
        -- injection Heq as -> ->. rewrite Hkeep.
           ++ apply lookup_delete_eq.
           ++ intros it Hit. now destruct (Hfresh it).
        -- now apply (Hgone k it).
      * intros k Hyoung. rewrite Hkeep.
        -- apply lookup_delete_ne. intros ->.
           specialize (Hyoung (t0, v0) (list_elem_of_here _ _)). cbn in Hyoung. lia.
        -- intros it Hit. apply Hyoung. now apply list_elem_of_further.
    + destruct (IH self Hnd) as (self' & Hrun & Hgone & Hkeep).
      { intros k it Hk. apply Hin. now apply list_elem_of_further. }
      exists self'. split; [exact Hrun|]. split.
      * intros k it Hk Hold. apply elem_of_cons in Hk as [Heq|Hk].
        -- injection Heq as -> ->. cbn in Hold. lia.
        -- now apply (Hgone k it).
      * intros k Hyoung. apply Hkeep.
        intros it Hit. apply Hyoung. now apply list_elem_of_further.
Qed.

(** What a sweep leaves behind, key by key. *)
Lemma clear_expired_lookup now self :
  exists self',
    clear_expired config now self = Some self' /\
    forall k,
      self' !! k =
      match self !! k with
      | Some (t, v) =>
          if Z.geb (now - t) (ncm_msg_cache_time config) then None else Some (t, v)
      | None => None
      end.
Proof.
  destruct (sweep_spec now (map_to_list self) self) as (self' & Hrun & Hgone & Hkeep).
  - apply NoDup_fst_map_to_list.
  - intros k it Hk. now apply elem_of_map_to_list.
  - exists self'. split; [exact Hrun|]. intros k.
    destruct (self !! k) as [[t v]|] eqn:E.
    + destruct (Z.geb_spec (now - t) (ncm_msg_cache_time config)) as [Hexp|Hlive].
      * apply (Hgone k (t, v)); [now apply elem_of_map_to_list | exact Hexp].
      * rewrite Hkeep; [exact E|].
        intros it Hit. apply elem_of_map_to_list in Hit.
        rewrite E in Hit. injection Hit as <-. exact Hlive.
    + rewrite Hkeep; [exact E|].
      intros it Hit. apply elem_of_map_to_list in Hit. congruence.
Qed.

(** The verdict of a sweep on one entry. *)
Lemma clear_expired_entry now self k t v :
  self !! k = Some (t, v) ->
  exists self',
    clear_expired config now self = Some self' /\
    self' !! k =
      if Z.geb (now - t) (ncm_msg_cache_time config) then None else Some (t, v).
Proof.
  intros E.
  destruct (clear_expired_lookup now self) as (self' & Hrun & Hlook).
  exists self'. split; [exact Hrun|]. now rewrite Hlook, E.
Qed.

(** C3: a sweep at time [now] never fails; an entry inserted at [t] is
    gone after it if and only if its age [now - t] has reached the
    configured threshold, and an entry strictly younger than the threshold
    is still there, unchanged. *)
Theorem clear_expired_removes_iff_expired now self k t v :
  self !! k = Some (t, v) ->
  exists self',
    clear_expired config now self = Some self' /\
    (self' !! k = None <-> ncm_msg_cache_time config <= now - t) /\
    (now - t < ncm_msg_cache_time config -> self' !! k = Some (t, v)).
Proof.
  intros E.
  destruct (clear_expired_entry now self k t v E) as (self' & Hrun & Hlook).
  exists self'. split; [exact Hrun|].
  destruct (Z.geb_spec (now - t) (ncm_msg_cache_time config)) as [Hexp|Hlive];
    rewrite Hlook.
  - split; [tauto | lia].
  - split; [| reflexivity]. split; [discriminate | lia].
Qed.

(** Keys that were absent stay absent: a sweep adds nothing. *)
Lemma clear_expired_absent now self self' k :
  clear_expired config now self = Some self' ->
  self !! k = None -> self' !! k = None.
Proof.
  intros Hrun E.
  destruct (clear_expired_lookup now self) as (self2 & Hrun2 & Hlook).
  rewrite Hrun in Hrun2. injection Hrun2 as <-.
  now rewrite Hlook, E.
Qed.

(** C4: writing [k] again at time [t2] stores the new value with the new
    time, whatever was written at [t1]; the state equals the one a single
    write at [t2] gives, so a later sweep removes the entry exactly when
    [now - t2] has reached the threshold and keeps it while [now - t2] is
    below it, even if [now - t1] is not. *)
Theorem set_twice_restarts_age t1 t2 now self k v1 v2 :
  let self2 := set t2 (set t1 self k v1) k v2 in
  self2 !! k = Some (t2, v2) /\
  self2 = set t2 self k v2 /\
  exists self',
    clear_expired config now self2 = Some self' /\
    (self' !! k = None <-> ncm_msg_cache_time config <= now - t2) /\
    (now - t2 < ncm_msg_cache_time config -> self' !! k = Some (t2, v2)).
Proof.
  intros self2.
  assert (E : self2 !! k = Some (t2, v2)) by apply set_lookup.
  split; [exact E|]. split.
  - unfold self2, set, setitem. apply insert_insert_eq.
  - destruct (clear_expired_entry now self2 k t2 v2 E) as (self' & Hrun & Hlook).
    exists self'. split; [exact Hrun|].
    destruct (Z.geb_spec (now - t2) (ncm_msg_cache_time config)) as [Hexp|Hlive];
      rewrite Hlook.
    + split; [tauto | lia].
    + split; [| reflexivity]. split; [discriminate | lia].
Qed.

(** C6: [get] right after [set] returns the value that was set; [pop]
    returns the stored value of a present key, and after a [pop] a [get]
    with default [d'] returns [d']; on an absent key [pop] and [get] return
    the default they were given and leave the cache as it is. *)
Theorem set_get_pop_laws now self k v (d d' : option VT) :
  get (set now self k v) k d = Some v /\
  (forall t w, self !! k = Some (t, w) ->
     pop self k d = (Some w, delete k self)) /\
  get (pop self k d).2 k d' = d' /\
  (self !! k = None ->
     pop self k d = (d, self) /\ get self k d = d /\ getitem self k = None).
Proof.
  split; [|split; [|split]].
  - apply (get_present _ _ now). apply set_lookup.
  - intros t w E. unfold pop, super_pop. now rewrite E.
  - unfold pop, super_pop. destruct (self !! k) as [it|] eqn:E; cbn.
    + apply get_absent. apply lookup_delete_eq.
    + now apply get_absent.
  - intros E. unfold pop, super_pop, get, getitem. now rewrite E.
Qed.

End CacheProperties.

(** The sweep at time 170 over the sample cache: message 1 (age 70) goes,
    message 2 (age 20) stays. *)
Example clear_expired_sample :
  MsgCache.clear_expired Samples.config_guest 170 Samples.cache_two
  = Some (MsgCache.set 150 ∅ 2 Samples.song_b).
Proof. vm_compute. reflexivity. Qed.

Lemma clear_expired_removes_iff_expired_witness :
  Samples.cache_two !! 1 = Some (100, Samples.song_a) /\
  exists self',
    MsgCache.clear_expired Samples.config_guest 170 Samples.cache_two = Some self' /\
    (self' !! 1 = None <-> ncm_msg_cache_time Samples.config_guest <= 170 - 100) /\
    (170 - 100 < ncm_msg_cache_time Samples.config_guest ->
     self' !! 1 = Some (100, Samples.song_a)).
Proof.
  split; [reflexivity|].
  apply (clear_expired_removes_iff_expired Samples.config_guest 170
           Samples.cache_two 1 100 Samples.song_a).
  reflexivity.
Defined.

(** Rewriting message 1 at time 150 keeps it through the sweep at 170 that
    its first insertion at time 100 would not have survived. *)
Example set_twice_sample :
  MsgCache.clear_expired Samples.config_guest 170
    (MsgCache.set 150 (MsgCache.set 100 ∅ 1 Samples.song_a) 1 Samples.song_b)
  = Some (MsgCache.set 150 ∅ 1 Samples.song_b)
  /\ MsgCache.clear_expired Samples.config_guest 170
       (MsgCache.set 100 ∅ 1 Samples.song_a)
     = Some ∅.
Proof. split; vm_compute; reflexivity. Qed.

(** ** The request wrapper and the pagination offset *)

Section DataSourceProperties.

Import DataSource.

Variable env : Env.

Lemma string_app_nil_r (a : string) : a ++ "" = a.
Proof.
  induction a as [|c a IH]; [reflexivity|].
  change (String c (a ++ "") = String c a). now f_equal.
Qed.

Lemma string_app_assoc (a b c : string) : (a ++ b) ++ c = a ++ b ++ c.
Proof.
  induction a as [|x a IH]; [reflexivity|].
  change (String x ((a ++ b) ++ c) = String x (a ++ b ++ c)). now f_equal.
Qed.

Lemma contains_middle (a b c : string) : contains (a ++ b ++ c) b.
Proof. now exists a, c. Qed.

Lemma contains_end (a b : string) : contains (a ++ b) b.
Proof. exists a, "". now rewrite string_app_nil_r. Qed.

Lemma request_failed_msg_contains name ret :
  contains (request_failed_msg env name ret) name /\
  contains (request_failed_msg env name ret) (py_str env ret).
Proof.
  unfold request_failed_msg. split.
  - apply contains_middle.
  - replace ("请求 " ++ name ++ " 失败" ++ String (Ascii.ascii_of_nat 10) (py_str env ret))
      with (("请求 " ++ name ++ " 失败" ++ String (Ascii.ascii_of_nat 10) "")
            ++ py_str env ret).
    + apply contains_end.
    + rewrite !string_app_assoc. reflexivity.
Qed.

(** An exception of the remote call itself leaves [ncm_request] as it is. *)
Lemma ncm_request_propagates {A} (api : Api A) args e :
  api_call api args = Raise e -> ncm_request env api args = Raise e.
Proof. intros E. unfold ncm_request. now rewrite E. Qed.

(** C7: when the call returns a dictionary, a response code that differs
    from 200 makes [ncm_request] raise a [RuntimeError] whose text contains
    the call's name and the printed response; with code 200, or without a
    code, the dictionary is returned as it came.  No third outcome
    exists. *)
Theorem ncm_request_raises_on_failure_code {A} (api : Api A) args d :
  api_call api args = Ok (PDict d) ->
  (forall c, dict_get "code" d = Some c -> eq_int c 200 = false ->
     exists msg,
       ncm_request env api args = Raise (RuntimeError msg) /\
       contains msg (api_name api) /\
       contains msg (py_str env (PDict d))) /\
  (forall c, dict_get "code" d = Some c -> eq_int c 200 = true ->
     ncm_request env api args = Ok d) /\
  (dict_get "code" d = None -> ncm_request env api args = Ok d).
Proof.
  intros E. unfold ncm_request. rewrite E. cbn [bind].
  split; [|split].
  - intros c Hc Hne. rewrite Hc.
    change (default (PInt 200) (Some c)) with c. rewrite Hne. cbn [negb].
    eexists. split; [reflexivity|]. apply request_failed_msg_contains.
  - intros c Hc Heq. rewrite Hc.
    change (default (PInt 200) (Some c)) with c. now rewrite Heq.
  - intros Hc. now rewrite Hc.
Qed.

(** C10: a response dictionary without a [code] key counts as a success:
    [ncm_request] returns it and does not raise. *)
Theorem ncm_request_missing_code_is_success {A} (api : Api A) args d :
  api_call api args = Ok (PDict d) ->
  dict_get "code" d = None ->
  ncm_request env api args = Ok d.
Proof.
  intros E Hc. unfold ncm_request. rewrite E. cbn [bind]. now rewrite Hc.
Qed.

Lemma or_zero_id (o : Z) : or_zero o = o.
Proof. unfold or_zero. destruct (Z.eqb_spec o 0); congruence. Qed.

(** C8: for a page number [p >= 1] and page size [s] the offset is
    [s * (p - 1)], which is 0 for page 1; it is the [offset] that
    [search_song] and [search_voice] send with the search request, next to
    the page size as [limit]. *)
Theorem offset_is_limit_times_previous_pages (p s : Z) keyword kwargs :
  1 <= p ->
  get_offset_by_page_num p s = s * (p - 1) /\
  get_offset_by_page_num 1 s = 0 /\
  arg_offset (search_song_args env keyword p kwargs)
    = ncm_list_limit (config env) * (p - 1) /\
  arg_limit (search_song_args env keyword p kwargs) = ncm_list_limit (config env) /\
  arg_offset (search_song_args env keyword 1 kwargs) = 0 /\
  dict_get "offset" (search_voice_payload env keyword p)
    = Some (PInt (ncm_list_limit (config env) * (p - 1))) /\
  (0 <= s -> 0 <= get_offset_by_page_num p s).
Proof.
  intros Hp. unfold search_song_args, search_voice_payload. cbn.
  rewrite or_zero_id. unfold get_offset_by_page_num.
  repeat split; try lia. intros Hs. nia.
Qed.

(** *** Track details *)

Lemma map_result_lookup {A B} (f : A -> result B) (l : list A) :
  forall out,
    map_result f l = Ok out ->
    length out = length l /\
    forall (i : nat) x, l !! i = Some x ->
      exists y, f x = Ok y /\ out !! i = Some y.
Proof.
  induction l as [|a l IH]; intros out Hrun; cbn in Hrun.
  - injection Hrun as <-. split; [reflexivity|]. intros i x Hi. discriminate.
  - destruct (f a) as [b|e] eqn:Ea; cbn in Hrun; [|discriminate].
    destruct (map_result f l) as [bs|e] eqn:El; cbn in Hrun; [|discriminate].
    injection Hrun as <-.
    destruct (IH bs eq_refl) as [Hlen Hnth].
    split; [cbn; now rewrite Hlen|].
    intros [|i] x Hi; cbn in Hi.
    + injection Hi as <-. now exists b.
    + now apply Hnth.
Qed.

Lemma privileges_fold_lookup (ps : list Privilege) :
  forall (m : gmap Z Privilege) k,
    (forall y, y ∈ ps -> id y <> k) ->
    foldl (fun m y => <[id y := y]> m) m ps !! k = m !! k.
Proof.
  induction ps as [|p ps IH]; intros m k Hno; cbn.
  - reflexivity.
  - rewrite IH.
    + apply lookup_insert_ne. apply Hno. apply list_elem_of_here.
    + intros y Hy. apply Hno. now apply list_elem_of_further.
Qed.

(** No record with id [k] in the response: [k in privileges] is false. *)
Lemma privileges_by_id_absent ps k :
  (forall y, y ∈ ps -> id y <> k) -> privileges_by_id ps !! k = None.
Proof.
  intros Hno. unfold privileges_by_id.
  rewrite privileges_fold_lookup by exact Hno. apply lookup_empty.
Qed.

(** What [privileges] holds under a key is a record of the response with
    that id. *)
Lemma privileges_by_id_present ps k y :
  privileges_by_id ps !! k = Some y -> y ∈ ps /\ id y = k.
Proof.
  unfold privileges_by_id.
  assert (G : forall (m : gmap Z Privilege),
             foldl (fun m y => <[id y := y]> m) m ps !! k = Some y ->
             (y ∈ ps /\ id y = k) \/ m !! k = Some y).
  { induction ps as [|p ps IH]; intros m Hl; cbn in Hl.
    - now right.
    - destruct (IH _ Hl) as [[Hin Hid]|Hm].
      + left. split; [now apply list_elem_of_further | exact Hid].
      + destruct (decide (id p = k)) as [Heq|Hne].
        * rewrite Heq, lookup_insert_eq in Hm. injection Hm as <-.
          left. split; [apply list_elem_of_here | exact Heq].
        * rewrite lookup_insert_ne in Hm by exact Hne. now right. }
  intros Hl. destruct (G ∅ Hl) as [Hres|Hm]; [exact Hres|].
  now rewrite lookup_empty in Hm.
Qed.

(** C9: in the list [get_track_info] returns, a song whose id has no
    privilege record in the response carries the record
    [Privilege(id=song_id, pl=128000)]. *)
Theorem get_track_info_defaults_missing_privilege
  ids kwargs res raw_ps ps raw_songs out (i : nat) d sid :
  ncm_request env (GetTrackDetail env) (ids, kwargs) = Ok res ->
  dict_get "privileges" res = Some (PList raw_ps) ->
  map_result (parse_Privilege env) raw_ps = Ok ps ->
  dict_get "songs" res = Some (PList raw_songs) ->
  get_track_info env ids kwargs = Ok out ->
  raw_songs !! i = Some (PDict d) ->
  dict_get "id" d = Some (PInt sid) ->
  (forall y, y ∈ ps -> id y <> sid) ->
  out !! i = Some {| song_fields := d;
                     privilege := {| id := sid; pl := 128000 |} |}.
Proof.
  intros Hreq Hp Hps Hs Hrun Hi Hid Hno.
  unfold get_track_info in Hrun. rewrite Hreq in Hrun. cbn [bind] in Hrun.
  unfold dict_item in Hrun. rewrite Hp in Hrun. cbn [bind as_list] in Hrun.
  rewrite Hps in Hrun. cbn [bind] in Hrun.
  rewrite Hs in Hrun. cbn [bind as_list] in Hrun.
  destruct (map_result_lookup _ _ _ Hrun) as [_ Hnth].
  destruct (Hnth i _ Hi) as (y & Hy & Hout).
  rewrite Hout. f_equal.
  unfold build_song, dict_item in Hy. rewrite Hid in Hy.
  cbn [bind song_privilege] in Hy.
  rewrite (privileges_by_id_absent ps sid Hno) in Hy.
  destruct (dict_get "privilege" d); [discriminate|].
  destruct (Song_valid env d); [|discriminate].
  now injection Hy as <-.
Qed.

(** With a record for its id in the response, the song carries one of the
    response's records with that id. *)
Lemma get_track_info_keeps_present_privilege
  ids kwargs res raw_ps ps raw_songs out (i : nat) d sid y :
  ncm_request env (GetTrackDetail env) (ids, kwargs) = Ok res ->
  dict_get "privileges" res = Some (PList raw_ps) ->
  map_result (parse_Privilege env) raw_ps = Ok ps ->
  dict_get "songs" res = Some (PList raw_songs) ->
  get_track_info env ids kwargs = Ok out ->
  raw_songs !! i = Some (PDict d) ->
  dict_get "id" d = Some (PInt sid) ->
  privileges_by_id ps !! sid = Some y ->
  out !! i = Some {| song_fields := d; privilege := y |} /\ y ∈ ps /\ id y = sid.
Proof.
  intros Hreq Hp Hps Hs Hrun Hi Hid Hy.
  split; [|now apply privileges_by_id_present].
  unfold get_track_info in Hrun. rewrite Hreq in Hrun. cbn [bind] in Hrun.
  unfold dict_item in Hrun. rewrite Hp in Hrun. cbn [bind as_list] in Hrun.
  rewrite Hps in Hrun. cbn [bind] in Hrun.
  rewrite Hs in Hrun. cbn [bind as_list] in Hrun.
  destruct (map_result_lookup _ _ _ Hrun) as [_ Hnth].
  destruct (Hnth i _ Hi) as (s & Hsng & Hout).
  rewrite Hout. f_equal.
  unfold build_song, dict_item in Hsng. rewrite Hid in Hsng.
  cbn [bind song_privilege] in Hsng.
  rewrite Hy in Hsng.
  destruct (dict_get "privilege" d); [discriminate|].
  destruct (Song_valid env d); [|discriminate].
  now injection Hsng as <-.
Qed.

End DataSourceProperties.

(** The failed detail call: the error names [GetTrackDetail] and prints the
    response. *)
Example ncm_request_failed_sample :
  DataSource.ncm_request
    (Samples.remote Samples.config_guest (Ok Samples.detail_failed)
       (Samples.always Samples.status_ok))
    (DataSource.GetTrackDetail
       (Samples.remote Samples.config_guest (Ok Samples.detail_failed)
          (Samples.always Samples.status_ok)))
    ([5], [])
  = Raise (RuntimeError
      ("请求 GetTrackDetail 失败" ++ String (Ascii.ascii_of_nat 10)
         "{'code': 400, 'msg': 'bad request'}")).
Proof. vm_compute. reflexivity. Qed.

Lemma ncm_request_raises_on_failure_code_witness :
  let env := Samples.remote Samples.config_guest (Ok Samples.detail_failed)
               (Samples.always Samples.status_ok) in
  let d := [("code", PInt 400); ("msg", PStr "bad request")] in
  DataSource.api_call (DataSource.GetTrackDetail env) ([5], []) = Ok (PDict d) /\
  ((forall c, dict_get "code" d = Some c -> eq_int c 200 = false ->
      exists msg,
        DataSource.ncm_request env (DataSource.GetTrackDetail env) ([5], [])
        = Raise (RuntimeError msg) /\
        contains msg (DataSource.api_name (DataSource.GetTrackDetail env)) /\
        contains msg (DataSource.py_str env (PDict d))) /\
   (forall c, dict_get "code" d = Some c -> eq_int c 200 = true ->
      DataSource.ncm_request env (DataSource.GetTrackDetail env) ([5], []) = Ok d) /\
   (dict_get "code" d = None ->
      DataSource.ncm_request env (DataSource.GetTrackDetail env) ([5], []) = Ok d)).
Proof.
  split; [reflexivity|].
  apply (ncm_request_raises_on_failure_code
           (Samples.remote Samples.config_guest (Ok Samples.detail_failed)
              (Samples.always Samples.status_ok))).
  reflexivity.
Defined.

Lemma ncm_request_missing_code_is_success_witness :
  let env := Samples.remote Samples.config_guest (Ok Samples.detail_no_code)
               (Samples.always Samples.status_ok) in
  let d := [("songs", PList [PDict [("id", PInt 6); ("name", PStr "six")]]);
            ("privileges", PList [])] in
  DataSource.api_call (DataSource.GetTrackDetail env) ([6], []) = Ok (PDict d) /\
  dict_get "code" d = None /\
  DataSource.ncm_request env (DataSource.GetTrackDetail env) ([6], []) = Ok d.
Proof.
  split; [reflexivity|]. split; [reflexivity|].
  apply (ncm_request_missing_code_is_success
           (Samples.remote Samples.config_guest (Ok Samples.detail_no_code)
              (Samples.always Samples.status_ok)));
    reflexivity.
Defined.

(** Page size 20: page 1 starts at offset 0, page 2 at 20, page 3 at 40. *)
Example offset_samples :
  DataSource.get_offset_by_page_num 1 20 = 0 /\
  DataSource.get_offset_by_page_num 2 20 = 20 /\
  DataSource.get_offset_by_page_num 3 20 = 40.
Proof. repeat split. Qed.

Lemma offset_is_limit_times_previous_pages_witness :
  let env := Samples.remote Samples.config_guest (Ok Samples.detail_failed)
               (Samples.always Samples.status_ok) in
  1 <= 2 /\
  (DataSource.get_offset_by_page_num 2 20 = 20 * (2 - 1) /\
   DataSource.get_offset_by_page_num 1 20 = 0 /\
   DataSource.arg_offset (DataSource.search_song_args env "test" 2 [])
     = ncm_list_limit (DataSource.config env) * (2 - 1) /\
   DataSource.arg_limit (DataSource.search_song_args env "test" 2 [])
     = ncm_list_limit (DataSource.config env) /\
   DataSource.arg_offset (DataSource.search_song_args env "test" 1 []) = 0 /\
   dict_get "offset" (DataSource.search_voice_payload env "test" 2)
     = Some (PInt (ncm_list_limit (DataSource.config env) * (2 - 1))) /\
   (0 <= 20 -> 0 <= DataSource.get_offset_by_page_num 2 20)).
Proof.
  split; [lia|].
  apply (offset_is_limit_times_previous_pages
           (Samples.remote Samples.config_guest (Ok Samples.detail_failed)
              (Samples.always Samples.status_ok)) 2 20 "test" []).
  lia.
Defined.

(** Two songs, a privilege record for the first only. *)
Example get_track_info_sample :
  DataSource.get_track_info
    (Samples.remote Samples.config_guest (Ok Samples.detail_two_songs)
       (Samples.always Samples.status_ok)) [5; 6] []
  = Ok [ {| DataSource.song_fields := [("id", PInt 5); ("name", PStr "five")];
            DataSource.privilege := {| DataSource.id := 5; DataSource.pl := 320000 |} |};
         {| DataSource.song_fields := [("id", PInt 6); ("name", PStr "six")];
            DataSource.privilege := {| DataSource.id := 6; DataSource.pl := 128000 |} |} ].
Proof. vm_compute. reflexivity. Qed.

Lemma get_track_info_defaults_missing_privilege_witness :
  let env := Samples.remote Samples.config_guest (Ok Samples.detail_two_songs)
               (Samples.always Samples.status_ok) in
  let song5 := [("id", PInt 5); ("name", PStr "five")] in
  let song6 := [("id", PInt 6); ("name", PStr "six")] in
  let raw_ps := [PDict [("id", PInt 5); ("pl", PInt 320000)]] in
  let ps := [ {| DataSource.id := 5; DataSource.pl := 320000 |} ] in
  let res := [("songs", PList [PDict song5; PDict song6]);
              ("privileges", PList raw_ps);
              ("code", PInt 200)] in
  (DataSource.ncm_request env (DataSource.GetTrackDetail env) ([5; 6], []) = Ok res /\
   dict_get "privileges" res = Some (PList raw_ps) /\
   DataSource.map_result (DataSource.parse_Privilege env) raw_ps = Ok ps /\
   dict_get "songs" res = Some (PList [PDict song5; PDict song6]) /\
   [PDict song5; PDict song6] !! 1%nat = Some (PDict song6) /\
   dict_get "id" song6 = Some (PInt 6) /\
   (forall y, y ∈ ps -> DataSource.id y <> 6)) /\
  exists out,
    DataSource.get_track_info env [5; 6] [] = Ok out /\
    out !! 1%nat
    = Some {| DataSource.song_fields := song6;
              DataSource.privilege :=
                {| DataSource.id := 6; DataSource.pl := 128000 |} |}.
Proof.
  cbv zeta.
  assert (Hno : forall y : DataSource.Privilege,
            y ∈ [ {| DataSource.id := 5; DataSource.pl := 320000 |} ] ->
            DataSource.id y <> 6).
  { intros y Hy. apply list_elem_of_singleton in Hy. subst y. discriminate. }
  split; [repeat split; exact Hno|].
  eexists. split; [reflexivity|].
  apply (get_track_info_defaults_missing_privilege
           (Samples.remote Samples.config_guest (Ok Samples.detail_two_songs)
              (Samples.always Samples.status_ok))
           [5; 6] []
           [("songs", PList [PDict [("id", PInt 5); ("name", PStr "five")];
                             PDict [("id", PInt 6); ("name", PStr "six")]]);
            ("privileges", PList [PDict [("id", PInt 5); ("pl", PInt 320000)]]);
            ("code", PInt 200)]
           [PDict [("id", PInt 5); ("pl", PInt 320000)]]
           [ {| DataSource.id := 5; DataSource.pl := 320000 |} ]
           [PDict [("id", PInt 5); ("name", PStr "five")];
            PDict [("id", PInt 6); ("name", PStr "six")]]
           _ 1%nat [("id", PInt 6); ("name", PStr "six")] 6);
    try reflexivity.
  exact Hno.
Defined.

(** ** The login sequence *)

Section LoginProperties.

Import DataSource.

Variable env : Env.

Lemma session_file_unlink w : session_file (unlink_if_exists w) = None.
Proof. unfold unlink_if_exists. destruct (session_file w) eqn:E; [reflexivity | exact E]. Qed.

Lemma count_event_record e e' w :
  count_event e (record e' w)
  = (if decide (e' = e) then S (count_event e w) else count_event e w).
Proof.
  unfold count_event, record. cbn [events]. rewrite filter_cons.
  destruct (decide (e' = e)); reflexivity.
Qed.

Lemma count_event_unlink e w :
  e <> EvUnlink -> count_event e (unlink_if_exists w) = count_event e w.
Proof.
  intros Hne. unfold unlink_if_exists. destruct (session_file w); [|reflexivity].
  rewrite count_event_record. destruct (decide (EvUnlink = e)); [congruence|].
  reflexivity.
Qed.

Lemma run_login_events e call w w1 x :
  x <> e -> run_login e call w = Ok w1 -> count_event x w1 = count_event x w.
Proof.
  intros Hne. unfold run_login. destruct (call _); cbn; [|discriminate].
  intros [= <-]. change (count_event x (record e w) = count_event x w).
  rewrite count_event_record. destruct (decide (e = x)); [congruence | reflexivity].
Qed.

(** The head of [login] makes no status call, and keeps [retry] only on
    the path that restores the session from the file. *)
Lemma establish_spec retry w retry1 w1 :
  establish env retry w = Ok (retry1, w1) ->
  retry1 = (retry && bool_decide (is_Some (session_file w))) /\
  count_event EvGetCurrentLoginStatus w1 = count_event EvGetCurrentLoginStatus w.
Proof.
  unfold establish. destruct (session_file w) as [text|] eqn:Ef.
  - destruct (LoadSessionFromString env text); cbn; [|discriminate].
    intros [= <- <-]. split; [now destruct retry | reflexivity].
  - replace (retry && bool_decide (is_Some (@None string))) with false
      by now destruct retry.
    destruct (has_credentials env).
    + destruct (truthy_opt_str (ncm_phone (config env)));
        (destruct (run_login _ _ w) as [w'|] eqn:Er; cbn; [|discriminate]);
        intros [= <- <-]; (split; [reflexivity|]);
        unfold write_session_file; rewrite count_event_record;
        (destruct (decide _); [congruence|]);
        (apply run_login_events with (x := EvGetCurrentLoginStatus) in Er;
         [exact Er | discriminate]).
    + destruct (run_login _ _ w) as [w'|] eqn:Er; cbn; [|discriminate].
      intros [= <- <-]. split; [reflexivity|].
      apply run_login_events with (x := EvGetCurrentLoginStatus) in Er;
        [exact Er | discriminate].
Qed.

Lemma establish_no_retry w retry1 w1 :
  establish env false w = Ok (retry1, w1) -> retry1 = false.
Proof. intros E. now destruct (establish_spec _ _ _ _ E) as [-> _]. Qed.

Lemma login_unfold fuel retry w :
  login env (S fuel) retry w =
  match establish env retry w with
  | Raise e => Some (Raise e, w)
  | Ok (retry1, w1) =>
      if verified env w1 then Some (Ok tt, record EvGetCurrentLoginStatus w1)
      else if retry1
           then login env fuel false
                  (unlink_if_exists (record EvGetCurrentLoginStatus w1))
           else Some (Raise login_state_error,
                      unlink_if_exists (record EvGetCurrentLoginStatus w1))
  end.
Proof. reflexivity. Qed.

(** What a call with [retry=False] does, by cases. *)
Lemma login_no_retry_cases n w :
  login env (S n) false w =
  match establish env false w with
  | Raise e => Some (Raise e, w)
  | Ok (_, w1) =>
      if verified env w1 then Some (Ok tt, record EvGetCurrentLoginStatus w1)
      else Some (Raise login_state_error,
                 unlink_if_exists (record EvGetCurrentLoginStatus w1))
  end.
Proof.
  rewrite login_unfold.
  destruct (establish env false w) as [[retry1 w1]|e] eqn:E; [|reflexivity].
  now rewrite (establish_no_retry _ _ _ E).
Qed.

(** A call with [retry=False] does not call [login] again: one unit of
    fuel is as good as any. *)
Lemma login_no_retry_fuel n w : login env (S n) false w = login env 1 false w.
Proof. now rewrite !login_no_retry_cases. Qed.

(** Two units of fuel are as good as any: the calls nest at most twice. *)
Lemma login_fuel n retry w : login env (S (S n)) retry w = login env 2 retry w.
Proof.
  rewrite (login_unfold (S n)), (login_unfold 1).
  destruct (establish env retry w) as [[retry1 w1]|e]; [|reflexivity].
  destruct (verified env w1); [reflexivity|].
  destruct retry1; [|reflexivity].
  apply login_no_retry_fuel.
Qed.

(** [login] returns or raises; it cannot call itself for ever. *)
Lemma login_total n retry w : is_Some (login env (S (S n)) retry w).
Proof.
  rewrite login_unfold.
  destruct (establish env retry w) as [[retry1 w1]|e]; [|eauto].
  destruct (verified env w1); [eauto|].
  destruct retry1; [|eauto].
  rewrite login_no_retry_cases.
  destruct (establish env false _) as [[retry2 w2]|e]; [|eauto].
  destruct (verified env w2); eauto.
Qed.

(** One call with [retry=False] makes at most one status call. *)
Lemma login_no_retry_status_calls w r w' :
  login env 1 false w = Some (r, w') ->
  (count_event EvGetCurrentLoginStatus w'
   <= S (count_event EvGetCurrentLoginStatus w))%nat.
Proof.
  rewrite login_no_retry_cases.
  destruct (establish env false w) as [[retry1 w1]|e] eqn:E.
  - destruct (establish_spec _ _ _ _ E) as [_ Hc].
    destruct (verified env w1); intros [= <- <-].
    + rewrite count_event_record, decide_True by reflexivity. lia.
    + rewrite count_event_unlink by discriminate.
      rewrite count_event_record, decide_True by reflexivity. lia.
  - intros [= <- <-]. lia.
Qed.

(** C2: after a failed verification the session file is gone; [login]
    is called again only if this call was allowed to retry and had restored
    the session from the file, and that second call, which cannot restore
    from the deleted file and is not allowed to retry, ends the sequence:
    either its client call raises, or verification succeeds, or it fails
    with the fatal error and the file is gone again.  In the other case the
    first failure is fatal at once.  In all, at most two status calls are
    made, for any amount of fuel from two on. *)
Theorem login_retries_once_after_restored_session fuel retry w retry1 w1 :
  (2 <= fuel)%nat ->
  establish env retry w = Ok (retry1, w1) ->
  verified env w1 = false ->
  let w3 := unlink_if_exists (record EvGetCurrentLoginStatus w1) in
  session_file w3 = None /\
  (retry1 = true <-> retry = true /\ is_Some (session_file w)) /\
  (retry1 = false ->
     login env fuel retry w = Some (Raise login_state_error, w3)) /\
  (retry1 = true ->
     login env fuel retry w = login env 1 false w3 /\
     match establish env false w3 with
     | Raise e => login env 1 false w3 = Some (Raise e, w3)
     | Ok (_, w4) =>
         let w5 := record EvGetCurrentLoginStatus w4 in
         if verified env w4
         then login env 1 false w3 = Some (Ok tt, w5)
         else login env 1 false w3
                = Some (Raise login_state_error, unlink_if_exists w5)
              /\ session_file (unlink_if_exists w5) = None
     end) /\
  (exists r w',
     login env fuel retry w = Some (r, w') /\
     (count_event EvGetCurrentLoginStatus w'
      <= count_event EvGetCurrentLoginStatus w + 2)%nat).
Proof.
  intros Hfuel E Hv w3.
  destruct fuel as [|[|n]]; [lia | lia |].
  destruct (establish_spec _ _ _ _ E) as [Hretry Hc].
  assert (Hc3 : count_event EvGetCurrentLoginStatus w3
                = S (count_event EvGetCurrentLoginStatus w)).
  { unfold w3. rewrite count_event_unlink by discriminate.
    now rewrite count_event_record, decide_True, Hc by reflexivity. }
  assert (Hrun : login env (S (S n)) retry w
                 = if retry1 then login env 1 false w3
                   else Some (Raise login_state_error, w3)).
  { rewrite login_unfold, E, Hv. destruct retry1; [|reflexivity].
    apply login_no_retry_fuel. }
  split; [apply session_file_unlink|]. split; [|split; [|split]].
  - rewrite Hretry. rewrite andb_true_iff, bool_decide_eq_true. tauto.
  - intros ->. exact Hrun.
  - intros ->. split; [exact Hrun|].
    rewrite login_no_retry_cases.
    destruct (establish env false w3) as [[retry2 w4]|e]; [|reflexivity].
    cbv zeta. destruct (verified env w4); [reflexivity|].
    split; [reflexivity | apply session_file_unlink].
  - rewrite Hrun. destruct retry1.
    + destruct (login_total 0 false w3) as [[r w'] Hsome].
      rewrite login_no_retry_fuel in Hsome.
      exists r, w'. split; [exact Hsome|].
      apply login_no_retry_status_calls in Hsome. lia.
    + exists (Raise login_state_error), w3. split; [reflexivity | lia].
Qed.

End LoginProperties.

(** A stale session file and no account: restore, fail, delete the file,
    log in as a guest, fail again, stop. *)
Example login_stale_file_guest :
  DataSource.login
    (Samples.remote Samples.config_guest (Ok Samples.detail_failed)
       (Samples.always Samples.status_no_account))
    2 true Samples.world_stale
  = Some (Raise DataSource.login_state_error,
          {| DataSource.session_file := None;
             DataSource.current_session := Samples.guest_session;
             DataSource.events :=
               [ DataSource.EvGetCurrentLoginStatus;
                 DataSource.EvLoginViaAnonymousAccount;
                 DataSource.EvUnlink;
                 DataSource.EvGetCurrentLoginStatus;
                 DataSource.EvLoadSessionFromString ] |}).
Proof. vm_compute. reflexivity. Qed.

(** A stale session file and a configured account: the second call logs in
    by phone, writes the new session and passes verification. *)
Example login_stale_file_account :
  DataSource.login
    (Samples.remote Samples.config_phone (Ok Samples.detail_failed)
       Samples.rejects_stale)
    2 true Samples.world_stale
  = Some (Ok tt,
          {| DataSource.session_file := Some "fresh";
             DataSource.current_session := Samples.fresh_session;
             DataSource.events :=
               [ DataSource.EvGetCurrentLoginStatus;
                 DataSource.EvWriteSession;
                 DataSource.EvLoginViaCellphone;
                 DataSource.EvUnlink;
                 DataSource.EvGetCurrentLoginStatus;
                 DataSource.EvLoadSessionFromString ] |}).
Proof. vm_compute. reflexivity. Qed.

(** No session file, a configured account that fails verification: fatal
    at once, and the file just written is deleted. *)
Example login_account_rejected :
  DataSource.login
    (Samples.remote Samples.config_phone (Ok Samples.detail_failed)
       (Samples.always Samples.status_no_account))
    2 true Samples.world_clean
  = Some (Raise DataSource.login_state_error,
          {| DataSource.session_file := None;
             DataSource.current_session := Samples.fresh_session;
             DataSource.events :=
               [ DataSource.EvUnlink;
                 DataSource.EvGetCurrentLoginStatus;
                 DataSource.EvWriteSession;
                 DataSource.EvLoginViaCellphone ] |}).
Proof. vm_compute. reflexivity. Qed.

Lemma login_retries_once_after_restored_session_witness :
  let env := Samples.remote Samples.config_guest (Ok Samples.detail_failed)
               (Samples.always Samples.status_no_account) in
  let w := Samples.world_stale in
  let w1 := DataSource.SetCurrentSession
              {| DataSource.nickname := "stale"; DataSource.uid := 1 |}
              (DataSource.record DataSource.EvLoadSessionFromString w) in
  let w3 := DataSource.unlink_if_exists
              (DataSource.record DataSource.EvGetCurrentLoginStatus w1) in
  ((2 <= 2)%nat /\
   DataSource.establish env true w = Ok (true, w1) /\
   DataSource.verified env w1 = false) /\
  DataSource.session_file w3 = None /\
  (true = true <-> true = true /\ is_Some (DataSource.session_file w)) /\
  (true = false ->
     DataSource.login env 2 true w = Some (Raise DataSource.login_state_error, w3)) /\
  (true = true ->
     DataSource.login env 2 true w = DataSource.login env 1 false w3 /\
     match DataSource.establish env false w3 with
     | Raise e => DataSource.login env 1 false w3 = Some (Raise e, w3)
     | Ok (_, w4) =>
         let w5 := DataSource.record DataSource.EvGetCurrentLoginStatus w4 in
         if DataSource.verified env w4
         then DataSource.login env 1 false w3 = Some (Ok tt, w5)
         else DataSource.login env 1 false w3
                = Some (Raise DataSource.login_state_error,
                        DataSource.unlink_if_exists w5)
              /\ DataSource.session_file (DataSource.unlink_if_exists w5) = None
     end) /\
  (exists r w',
     DataSource.login env 2 true w = Some (r, w') /\
     (DataSource.count_event DataSource.EvGetCurrentLoginStatus w'
      <= DataSource.count_event DataSource.EvGetCurrentLoginStatus w + 2)%nat).
Proof.
  cbv zeta.
  split; [repeat split; lia|].
  apply (login_retries_once_after_restored_session
           (Samples.remote Samples.config_guest (Ok Samples.detail_failed)
              (Samples.always Samples.status_no_account))
           2 true Samples.world_stale true).
  - lia.
  - reflexivity.
  - reflexivity.
Defined.

(** ** The song searcher *)

Section SongProperties.

Import DataSource SongProvider.

Variable env : Env.

(** [search_by_id] returns [None] exactly when [from_id] raises a
    [ValueError]. *)
Lemma search_by_id_none arg_id :
  search_by_id env arg_id = Ok None <->
  exists e, from_id env arg_id = Raise e /\ is_ValueError e = true.
Proof.
  unfold search_by_id. destruct (from_id env arg_id) as [s|e].
  - split; [discriminate | intros (e & He & _); discriminate].
  - destruct (is_ValueError e) eqn:Ev.
    + split; [intros _; now exists e | reflexivity].
    + split; [discriminate | intros (e' & [= <-] & He'); congruence].
Qed.

(** A song found: the searcher wraps the first element of the detail
    list. *)
Lemma search_by_id_found arg_id x rest :
  get_track_info env [arg_id] [] = Ok (x :: rest) ->
  Song_bool env x = true ->
  search_by_id env arg_id = Ok (Some {| info := x |}).
Proof.
  intros Hinfo Hb. unfold search_by_id, from_id.
  rewrite Hinfo. cbn [bind list_item0]. now rewrite Hb.
Qed.

(** A successful detail response whose song list is empty: [from_id]
    indexes the empty list before its own test, and the [IndexError] is
    not a [ValueError]. *)
Lemma search_by_id_empty_song_list arg_id res raw_ps ps :
  ncm_request env (GetTrackDetail env) ([arg_id], []) = Ok res ->
  dict_get "privileges" res = Some (PList raw_ps) ->
  map_result (parse_Privilege env) raw_ps = Ok ps ->
  dict_get "songs" res = Some (PList []) ->
  get_track_info env [arg_id] [] = Ok [] /\
  from_id env arg_id = Raise IndexError /\
  search_by_id env arg_id = Raise IndexError.
Proof.
  intros Hreq Hp Hps Hs.
  assert (Hinfo : get_track_info env [arg_id] [] = Ok []).
  { unfold get_track_info, dict_item. rewrite Hreq. cbn [bind].
    rewrite Hp. cbn [bind as_list]. rewrite Hps. cbn [bind].
    rewrite Hs. reflexivity. }
  unfold search_by_id, from_id. rewrite Hinfo. now cbn.
Qed.

(** X15: a response code other than 200 on the detail call reaches the caller
    of [search_by_id] as the [RuntimeError] of [ncm_request]. *)
Lemma search_by_id_transport_failure arg_id d c :
  api_call (GetTrackDetail env) ([arg_id], []) = Ok (PDict d) ->
  dict_get "code" d = Some c ->
  eq_int c 200 = false ->
  search_by_id env arg_id
  = Raise (RuntimeError
             (request_failed_msg env (api_name (GetTrackDetail env)) (PDict d))).
Proof.
  intros Hcall Hc Hne.
  unfold search_by_id, from_id, get_track_info, ncm_request.
  rewrite Hcall. cbn [bind]. rewrite Hc.
  change (default (PInt 200) (Some c)) with c. rewrite Hne. reflexivity.
Qed.

Lemma enumerate_lookup {A} (l : list A) :
  forall start (i : nat),
    enumerate l start !! i = (fun x => (start + Z.of_nat i, x)) <$> l !! i.
Proof.
  induction l as [|a l IH]; intros start i.
  - reflexivity.
  - destruct i as [|i].
    + cbn. now rewrite Z.add_0_r.
    + cbn [enumerate]. rewrite !lookup_cons. rewrite IH.
      destruct (l !! i); cbn; [|reflexivity]. do 2 f_equal. lia.
Qed.

Lemma enumerate_length {A} (l : list A) :
  forall start, length (enumerate l start) = length l.
Proof. induction l as [|a l IH]; intros start; cbn; [reflexivity | now rewrite IH]. Qed.

Lemma string_length_app (a b : string) :
  String.length (a ++ b) = (String.length a + String.length b)%nat.
Proof.
  induction a as [|c a IH]; [reflexivity|].
  change (S (String.length (a ++ b)) = S (String.length a + String.length b)).
  now rewrite IH.
Qed.

Lemma string_app_inv_tail (a b t : string) : a ++ t = b ++ t -> a = b.
Proof.
  revert b. induction a as [|c a IH]; intros [|c' b] Heq.
  - reflexivity.
  - apply (f_equal String.length) in Heq.
    change (("" : string) ++ t) with t in Heq.
    rewrite string_length_app in Heq. cbn in Heq. lia.
  - apply (f_equal String.length) in Heq.
    change (("" : string) ++ t) with t in Heq.
    rewrite string_length_app in Heq. cbn in Heq. lia.
  - change (String c (a ++ t) = String c' (b ++ t)) in Heq.
    injection Heq as -> Heq. f_equal. now apply IH.
Qed.

(** The rank cell is the decimal number between the two bold marks, so
    different ranks are shown as different texts. *)
Lemma rank_cell_inj (i j : Z) : rank_cell i = rank_cell j -> i = j.
Proof.
  unfold rank_cell. intros Heq.
  apply (inj (String.append "[b]")) in Heq.
  apply string_app_inv_tail in Heq.
  now apply (inj pretty) in Heq.
Qed.

(** C5: for a non-empty page [p >= 1] the table has one row per song, and
    row [i] (from 0) starts with the cell that shows the decimal number
    [s * (p - 1) + 1 + i] between the bold marks, where [s] is the page
    size: the first rank is [s * (p - 1) + 1] and each row adds one.  No
    two rows show the same rank, and with page size 20 the first cell of
    page 2 reads [[b]21[/b]], which is not the [[b]1[/b]] of page 1. *)
Theorem rank_numbers_continue_across_pages resp page l :
  1 <= page ->
  songs resp = Some l ->
  l <> [] ->
  exists r,
    _build_search_resp env resp page = Ok r /\
    length (table_rows (resp_table r)) = length l /\
    (forall (i : nat) x, l !! i = Some x ->
       exists cells,
         table_rows (resp_table r) !! i
         = Some (("[b]"
                  ++ pretty (ncm_list_limit (config env) * (page - 1) + 1
                             + Z.of_nat i)
                  ++ "[/b]")
                 :: cells)) /\
    (forall (i j : nat) c cells cells',
       table_rows (resp_table r) !! i = Some (c :: cells) ->
       table_rows (resp_table r) !! j = Some (c :: cells') ->
       i = j) /\
    (ncm_list_limit (config env) = 20 -> page = 2 ->
     exists cells,
       table_rows (resp_table r) !! 0%nat = Some ("[b]21[/b]" :: cells) /\
       "[b]21[/b]" <> "[b]1[/b]").
Proof.
  intros Hp Hs Hne. unfold _build_search_resp. rewrite Hs.
  destruct l as [|x0 l0]; [congruence|].
  eexists. split; [reflexivity|]. cbn [resp_table table_rows].
  assert (Hrow : forall (i : nat) row,
            map (build_row env)
              (enumerate (x0 :: l0) (_calc_index_offset env page)) !! i
            = Some row ->
            exists x cells,
              (x0 :: l0) !! i = Some x /\
              row = rank_cell (ncm_list_limit (config env) * (page - 1) + 1
                               + Z.of_nat i) :: cells).
  { intros i row Hi. rewrite list_lookup_fmap, enumerate_lookup in Hi.
    destruct ((x0 :: l0) !! i) as [x|]; [|discriminate].
    cbn in Hi. injection Hi as <-. eexists _, _. split; reflexivity. }
  split; [now rewrite length_map, enumerate_length|]. split; [|split].
  - intros i x Hi. rewrite list_lookup_fmap, enumerate_lookup, Hi.
    cbn. eexists. reflexivity.
  - intros i j c cells cells' Hi Hj.
    destruct (Hrow _ _ Hi) as (xi & ci & _ & Ei).
    destruct (Hrow _ _ Hj) as (xj & cj & _ & Ej).
    assert (Heq : rank_cell (ncm_list_limit (config env) * (page - 1) + 1
                             + Z.of_nat i)
                  = rank_cell (ncm_list_limit (config env) * (page - 1) + 1
                               + Z.of_nat j)) by congruence.
    apply rank_cell_inj in Heq. lia.
  - intros Hlimit ->. cbn [enumerate map lookup list_lookup].
    unfold build_row, _calc_index_offset, get_offset_by_page_num.
    rewrite Hlimit. eexists. split; [vm_compute; reflexivity | discriminate].
Qed.

End SongProperties.

(** C1: the detail call answers a request for an id that no entry has
    with code 200 and an empty song list; [search_by_id] then raises
    [IndexError] where [None] was to be returned. *)
Theorem search_by_id_unknown_id_raises_IndexError :
  SongProvider.search_by_id
    (Samples.remote Samples.config_guest (Ok Samples.detail_unknown_id)
       (Samples.always Samples.status_ok)) 404
  = Raise IndexError.
Proof. vm_compute. reflexivity. Qed.

(** The other two outcomes of [search_by_id] on the sample service: a
    known id gives the song, a failed detail call gives the error of the
    request wrapper. *)
Example search_by_id_samples :
  SongProvider.search_by_id
    (Samples.remote Samples.config_guest (Ok Samples.detail_two_songs)
       (Samples.always Samples.status_ok)) 5
  = Ok (Some {| SongProvider.info :=
                  {| DataSource.song_fields := [("id", PInt 5); ("name", PStr "five")];
                     DataSource.privilege :=
                       {| DataSource.id := 5; DataSource.pl := 320000 |} |} |})
  /\
  SongProvider.search_by_id
    (Samples.remote Samples.config_guest (Ok Samples.detail_failed)
       (Samples.always Samples.status_ok)) 5
  = Raise (RuntimeError
      ("请求 GetTrackDetail 失败" ++ String (Ascii.ascii_of_nat 10)
         "{'code': 400, 'msg': 'bad request'}")).
Proof. split; vm_compute; reflexivity. Qed.

(** Page 2 with page size 20: the rows are numbered 21 and 22. *)
Example build_search_resp_page_two :
  SongProvider.table_rows
    <$> (match SongProvider._build_search_resp
                 (Samples.remote Samples.config_guest (Ok Samples.detail_failed)
                    (Samples.always Samples.status_ok))
                 Samples.result_page 2 with
         | Ok r => Some (SongProvider.resp_table r)
         | Raise _ => None
         end)
  = Some [ ["[b]21[/b]"; "five"; ""; ""; ""];
           ["[b]22[/b]"; "six"; ""; ""; ""] ].
Proof. vm_compute. reflexivity. Qed.

Lemma rank_numbers_continue_across_pages_witness :
  let env := Samples.remote Samples.config_guest (Ok Samples.detail_failed)
               (Samples.always Samples.status_ok) in
  let l := [ {| DataSource.song_fields := [("id", PInt 5); ("name", PStr "five")];
                DataSource.privilege :=
                  {| DataSource.id := 5; DataSource.pl := 320000 |} |};
             {| DataSource.song_fields := [("id", PInt 6); ("name", PStr "six")];
                DataSource.privilege :=
                  {| DataSource.id := 6; DataSource.pl := 128000 |} |} ] in
  (1 <= 2 /\ DataSource.songs Samples.result_page = Some l /\ l <> []) /\
  exists r,
    SongProvider._build_search_resp env Samples.result_page 2 = Ok r /\
    length (SongProvider.table_rows (SongProvider.resp_table r)) = length l /\
    (forall (i : nat) x, l !! i = Some x ->
       exists cells,
         SongProvider.table_rows (SongProvider.resp_table r) !! i
         = Some (("[b]"
                  ++ pretty (ncm_list_limit (DataSource.config env) * (2 - 1) + 1
                             + Z.of_nat i)
                  ++ "[/b]")
                 :: cells)) /\
    (forall (i j : nat) c cells cells',
       SongProvider.table_rows (SongProvider.resp_table r) !! i = Some (c :: cells) ->
       SongProvider.table_rows (SongProvider.resp_table r) !! j = Some (c :: cells') ->
       i = j) /\
    (ncm_list_limit (DataSource.config env) = 20 -> 2 = 2 ->
     exists cells,
       SongProvider.table_rows (SongProvider.resp_table r) !! 0%nat
       = Some ("[b]21[/b]" :: cells) /\
       "[b]21[/b]" <> "[b]1[/b]").
Proof.
  cbv zeta.
  split; [split; [lia | split; [reflexivity | discriminate]]|].
  apply (rank_numbers_continue_across_pages
           (Samples.remote Samples.config_guest (Ok Samples.detail_failed)
              (Samples.always Samples.status_ok))
           Samples.result_page 2).
  - lia.
  - reflexivity.
  - discriminate.
Defined.

(** The first rank on page 2 with page size 20 is 21. *)
Example first_rank_page_two :
  SongProvider.rank_cell (20 * (2 - 1) + 1 + Z.of_nat 0) = "[b]21[/b]".
Proof. vm_compute. reflexivity. Qed.

(** * Further properties *)

(** ** The cache as a whole *)

Section CacheWhole.

Import MsgCache.

Context {KT : Type} `{Countable KT} {VT : Type}.

Variable config : Config.

Implicit Types (self : gmap KT (Z * VT)) (k : KT) (v : VT) (t now : Z).

(** X1: a sweep is the filter that keeps the entries younger than the
    threshold: nothing is added, nothing is changed, and the result is a
    part of the cache it started from. *)
Theorem clear_expired_is_filter now self :
  clear_expired config now self
  = Some (filter (fun kv : KT * (Z * VT) =>
                    now - fst (snd kv) < ncm_msg_cache_time config) self)
  /\ filter (fun kv : KT * (Z * VT) =>
               now - fst (snd kv) < ncm_msg_cache_time config) self ⊆ self.
Proof.
  split; [|apply map_filter_subseteq].
  destruct (clear_expired_lookup config now self) as (self' & Hrun & Hlook).
  rewrite Hrun. f_equal. apply map_eq. intros k. rewrite Hlook. symmetry.
  destruct (self !! k) as [[t v]|] eqn:E.
  - destruct (Z.geb_spec (now - t) (ncm_msg_cache_time config)) as [Hexp|Hlive].
    + apply map_lookup_filter_None. right. intros x Hx.
      rewrite E in Hx. injection Hx as <-. cbn. lia.
    + apply map_lookup_filter_Some. split; [exact E | exact Hlive].
  - apply map_lookup_filter_None. now left.
Qed.

(** X2: sweeping at [now1] and then at a later [now2] leaves what one sweep at
    [now2] leaves; in particular a second sweep at the same time changes
    nothing. *)
Theorem clear_expired_twice now1 now2 self :
  now1 <= now2 ->
  exists self1 self2,
    clear_expired config now1 self = Some self1 /\
    clear_expired config now2 self1 = Some self2 /\
    clear_expired config now2 self = Some self2 /\
    clear_expired config now1 self1 = Some self1.
Proof.
  intros Hle.
  destruct (clear_expired_lookup config now1 self) as (self1 & Hrun1 & Hl1).
  destruct (clear_expired_lookup config now2 self1) as (self2 & Hrun2 & Hl2).
  destruct (clear_expired_lookup config now2 self) as (self3 & Hrun3 & Hl3).
  destruct (clear_expired_lookup config now1 self1) as (self4 & Hrun4 & Hl4).
  exists self1, self2. split; [exact Hrun1|]. split; [exact Hrun2|]. split.
  - rewrite Hrun3. f_equal. apply map_eq. intros k.
    rewrite Hl3, Hl2, Hl1. destruct (self !! k) as [[t v]|]; [|reflexivity].
    destruct (Z.geb_spec (now1 - t) (ncm_msg_cache_time config)); cbn;
      destruct (Z.geb_spec (now2 - t) (ncm_msg_cache_time config));
      try reflexivity; lia.
  - rewrite Hrun4. f_equal. apply map_eq. intros k.
    rewrite Hl4, Hl1. destruct (self !! k) as [[t v]|]; [|reflexivity].
    destruct (now1 - t >=? ncm_msg_cache_time config) eqn:Hage; cbn;
      [reflexivity | now rewrite Hage].
Qed.

(** X3: [items()] yields exactly the pairs of a key and the value stored under
    it, each key once and without the insertion time; [values()] yields
    their second halves, and both have as many elements as the cache. *)
Theorem items_are_the_stored_values self :
  (forall k v, (k, v) ∈ items self <-> getitem self k = Some v) /\
  NoDup (fst <$> items self) /\
  values self = snd <$> items self /\
  length (items self) = size self.
Proof.
  unfold items, values, getitem. split; [|split; [|split]].
  - intros k v. rewrite list_elem_of_fmap. split.
    + intros ([k' [t v']] & [= -> ->] & Hin).
      apply elem_of_map_to_list in Hin. now rewrite Hin.
    + destruct (self !! k) as [[t v']|] eqn:E; [|discriminate].
      intros [= <-]. exists (k, (t, v')). split; [reflexivity|].
      now apply elem_of_map_to_list.
  - rewrite <- list_fmap_compose.
    replace (fst ∘ (fun kv : KT * (Z * VT) => (fst kv, snd (snd kv))))
      with (@fst KT (Z * VT)) by reflexivity.
    apply NoDup_fst_map_to_list.
  - now rewrite <- list_fmap_compose.
  - rewrite length_fmap. apply length_map_to_list.
Qed.

(** X4: storing a value and popping it again returns that value and leaves the
    cache without the key; if the key was new, the cache is as before. *)
Theorem pop_after_set now self k v (d : option VT) :
  pop (set now self k v) k d = (Some v, delete k self) /\
  (self !! k = None -> snd (pop (set now self k v) k d) = self).
Proof.
  assert (E : pop (set now self k v) k d = (Some v, delete k self)).
  { unfold pop, super_pop. rewrite set_lookup. cbn.
    unfold set, setitem. now rewrite delete_insert_eq. }
  split; [exact E|]. intros Hk. rewrite E. cbn. now apply delete_id.
Qed.

(** X5: writing, removing or sweeping one key does not touch another: [get] on
    [k'] answers the same after [set] or [pop] on [k], and a sweep decides
    on [k'] alike with or without the write to [k]. *)
Theorem other_keys_untouched now now' self k k' v (d d' : option VT) :
  k <> k' ->
  get (set now self k v) k' d' = get self k' d' /\
  get (snd (pop self k d)) k' d' = get self k' d' /\
  exists swept swept',
    clear_expired config now' self = Some swept /\
    clear_expired config now' (set now self k v) = Some swept' /\
    swept' !! k' = swept !! k'.
Proof.
  intros Hne. split; [|split].
  - unfold get. now rewrite set_lookup_other.
  - unfold pop, super_pop, get. destruct (self !! k); cbn; [|reflexivity].
    now rewrite lookup_delete_ne.
  - destruct (clear_expired_lookup config now' self) as (s1 & Hrun1 & Hl1).
    destruct (clear_expired_lookup config now' (set now self k v))
      as (s2 & Hrun2 & Hl2).
    exists s1, s2. split; [exact Hrun1|]. split; [exact Hrun2|].
    now rewrite Hl1, Hl2, set_lookup_other.
Qed.

End CacheWhole.

Lemma clear_expired_twice_witness :
  170 <= 215 /\
  exists self1 self2,
    MsgCache.clear_expired Samples.config_guest 170 Samples.cache_two = Some self1 /\
    MsgCache.clear_expired Samples.config_guest 215 self1 = Some self2 /\
    MsgCache.clear_expired Samples.config_guest 215 Samples.cache_two = Some self2 /\
    MsgCache.clear_expired Samples.config_guest 170 self1 = Some self1.
Proof.
  split; [lia|].
  apply (clear_expired_twice Samples.config_guest 170 215 Samples.cache_two).
  lia.
Defined.

Lemma other_keys_untouched_witness :
  (1 : Z) <> 2 /\
  (MsgCache.get (MsgCache.set 160 Samples.cache_two 1 Samples.song_b) 2 None
   = MsgCache.get Samples.cache_two 2 None /\
   MsgCache.get (snd (MsgCache.pop Samples.cache_two 1 None)) 2 None
   = MsgCache.get Samples.cache_two 2 None /\
   exists swept swept',
     MsgCache.clear_expired Samples.config_guest 170 Samples.cache_two = Some swept /\
     MsgCache.clear_expired Samples.config_guest 170
       (MsgCache.set 160 Samples.cache_two 1 Samples.song_b) = Some swept' /\
     swept' !! 2 = swept !! 2).
Proof.
  split; [lia|].
  apply (other_keys_untouched Samples.config_guest 160 170 Samples.cache_two 1 2
           Samples.song_b None None).
  lia.
Defined.

(** The sample cache through its generators. *)
Example items_sample :
  MsgCache.items Samples.cache_two ≡ₚ [(1, Samples.song_a); (2, Samples.song_b)]
  /\ MsgCache.values Samples.cache_two ≡ₚ [Samples.song_a; Samples.song_b].
Proof. split; vm_compute; apply perm_swap. Qed.

(** ** Requests and track details as a whole *)

Section DataSourceWhole.

Import DataSource.

Variable env : Env.

(** X6: [ncm_request] returns a dictionary exactly when the call returned that
    dictionary and its [code] is absent or equal to 200; every other answer
    of the call ends in an exception. *)
Theorem ncm_request_ok_iff {A} (api : Api A) args d :
  ncm_request env api args = Ok d <->
  api_call api args = Ok (PDict d) /\
  (dict_get "code" d = None \/
   exists c, dict_get "code" d = Some c /\ eq_int c 200 = true).
Proof.
  unfold ncm_request. destruct (api_call api args) as [ret|e]; cbn [bind].
  - destruct ret as [| | | |l|d0];
      try (split; [discriminate | intros [[=] _]]).
    destruct (dict_get "code" d0) as [c|] eqn:Ec.
    + change (default (PInt 200) (Some c)) with c.
      destruct (eq_int c 200) eqn:Eq; cbn [negb].
      * split.
        -- intros [= <-]. split; [reflexivity|]. right. now exists c.
        -- now intros [[= <-] _].
      * split; [discriminate|].
        intros [[= <-] [Hn | (c' & Hc' & Ht)]]; congruence.
    + split.
      * intros [= <-]. split; [reflexivity | now left].
      * now intros [[= <-] _].
  - split; [discriminate | intros [[=] _]].
Qed.

Lemma map_result_lookup_inv {A B} (f : A -> result B) (l : list A) out
  (i : nat) y :
  map_result f l = Ok out ->
  out !! i = Some y ->
  exists x, l !! i = Some x /\ f x = Ok y.
Proof.
  intros Hrun Hi.
  destruct (map_result_lookup f l out Hrun) as [Hlen Hnth].
  destruct (lookup_lt_is_Some_2 l i) as [x Hx].
  { rewrite <- Hlen. now apply lookup_lt_Some in Hi. }
  exists x. split; [exact Hx|].
  destruct (Hnth i x Hx) as (y' & Hy' & Hout). congruence.
Qed.

(** What [build_song] returns is the record it was given, and for a
    record with an integer id the privilege has that id. *)
Lemma build_song_ok ps x s :
  build_song env (privileges_by_id ps) x = Ok s ->
  x = PDict (song_fields s) /\
  dict_get "privilege" (song_fields s) = None /\
  (forall sid, dict_get "id" (song_fields s) = Some (PInt sid) ->
     id (privilege s) = sid).
Proof.
  unfold build_song, dict_item. destruct x as [| | | |l|d]; try discriminate.
  destruct (dict_get "id" d) as [v|] eqn:Eid; cbn [bind]; [|discriminate].
  destruct (song_privilege env (privileges_by_id ps) v) as [p|] eqn:Ev;
    cbn [bind]; [|discriminate].
  destruct (dict_get "privilege" d) eqn:Ep; [discriminate|].
  destruct (Song_valid env d); [|discriminate].
  intros [= <-]. cbn. split; [reflexivity|]. split; [exact Ep|].
  intros sid Hsid. rewrite Eid in Hsid. injection Hsid as ->.
  cbn in Ev. injection Ev as <-.
  destruct (privileges_by_id ps !! sid) as [y|] eqn:Ey; [|reflexivity].
  now apply privileges_by_id_present in Ey as [_ ->].
Qed.

(** A song whose id is a string or [None] has no record in [privileges];
    it gets what the validation of [Privilege(id=song_id, pl=128000)]
    gives, and an exception of that validation leaves [build_song]. *)
Lemma build_song_other_id privileges d v :
  dict_get "id" d = Some v ->
  v = PNone \/ (exists t, v = PStr t) ->
  build_song env privileges (PDict d)
  = bind (parse_Privilege env (PDict [("id", v); ("pl", PInt 128000)]))
      (fun p =>
         match dict_get "privilege" d with
         | Some _ => Raise TypeError
         | None =>
             if Song_valid env d
             then Ok {| song_fields := d; privilege := p |}
             else Raise (ValidationError "Song")
         end).
Proof.
  intros Hid Hv. unfold build_song, dict_item. rewrite Hid. cbn [bind].
  destruct Hv as [-> | [t ->]]; reflexivity.
Qed.

(** X7: the songs [get_track_info] returns are the records of the
    response's song list, one for one and in its order, whatever ids were
    asked for; none of them has a [privilege] field of its own, and each
    one with an integer id carries a privilege with that id. *)
Theorem get_track_info_follows_response ids kwargs res raw_songs out :
  ncm_request env (GetTrackDetail env) (ids, kwargs) = Ok res ->
  dict_get "songs" res = Some (PList raw_songs) ->
  get_track_info env ids kwargs = Ok out ->
  length out = length raw_songs /\
  forall (i : nat) s, out !! i = Some s ->
    raw_songs !! i = Some (PDict (song_fields s)) /\
    dict_get "privilege" (song_fields s) = None /\
    (forall sid, dict_get "id" (song_fields s) = Some (PInt sid) ->
       id (privilege s) = sid).
Proof.
  intros Hreq Hs Hrun.
  unfold get_track_info, dict_item in Hrun. rewrite Hreq in Hrun. cbn [bind] in Hrun.
  destruct (dict_get "privileges" res) as [raw|]; cbn [bind] in Hrun; [|discriminate].
  destruct (as_list raw) as [raw_ps|]; cbn [bind] in Hrun; [|discriminate].
  destruct (map_result (parse_Privilege env) raw_ps) as [ps|];
    cbn [bind] in Hrun; [|discriminate].
  rewrite Hs in Hrun. cbn [bind as_list] in Hrun.
  split; [apply (map_result_lookup _ _ _ Hrun)|].
  intros i s Hi.
  destruct (map_result_lookup_inv _ _ _ _ _ Hrun Hi) as (x & Hx & Hb).
  apply build_song_ok in Hb as (-> & Hp & Hid). now repeat split.
Qed.

(** The record that [privileges] keeps for an id is the last one of the
    response with that id. *)
Lemma privileges_by_id_last ps1 y ps2 :
  (forall z, z ∈ ps2 -> id z <> id y) ->
  privileges_by_id (ps1 ++ y :: ps2)%list !! id y = Some y.
Proof.
  intros Hno. unfold privileges_by_id. rewrite foldl_app. cbn [foldl].
  rewrite privileges_fold_lookup by exact Hno. apply lookup_insert_eq.
Qed.

(** X8: when the response has several privilege records for a song, the song
    gets the last of them. *)
Theorem get_track_info_last_record_wins
  ids kwargs res raw_ps ps1 y ps2 raw_songs out (i : nat) d :
  ncm_request env (GetTrackDetail env) (ids, kwargs) = Ok res ->
  dict_get "privileges" res = Some (PList raw_ps) ->
  map_result (parse_Privilege env) raw_ps = Ok (ps1 ++ y :: ps2)%list ->
  (forall z, z ∈ ps2 -> id z <> id y) ->
  dict_get "songs" res = Some (PList raw_songs) ->
  get_track_info env ids kwargs = Ok out ->
  raw_songs !! i = Some (PDict d) ->
  dict_get "id" d = Some (PInt (id y)) ->
  out !! i = Some {| song_fields := d; privilege := y |}.
Proof.
  intros Hreq Hp Hps Hno Hs Hrun Hi Hid.
  apply (get_track_info_keeps_present_privilege env ids kwargs res raw_ps
           (ps1 ++ y :: ps2)%list raw_songs out i d (id y) y);
    try assumption.
  now apply privileges_by_id_last.
Qed.

(** X9: a successful response must carry both lists: without [privileges] the
    call fails with [KeyError] even if no song needs one, and with an
    empty [privileges] list but without [songs] it fails with [KeyError]
    on [songs]. *)
Theorem get_track_info_missing_keys ids kwargs res :
  ncm_request env (GetTrackDetail env) (ids, kwargs) = Ok res ->
  (dict_get "privileges" res = None ->
     get_track_info env ids kwargs = Raise (KeyError "privileges")) /\
  (dict_get "privileges" res = Some (PList []) ->
   dict_get "songs" res = None ->
     get_track_info env ids kwargs = Raise (KeyError "songs")).
Proof.
  intros Hreq. unfold get_track_info, dict_item. rewrite Hreq. cbn [bind].
  split.
  - intros Hp. now rewrite Hp.
  - intros Hp Hs. rewrite Hp. cbn. now rewrite Hs.
Qed.

End DataSourceWhole.

Lemma get_track_info_follows_response_witness :
  let env := Samples.remote Samples.config_guest (Ok Samples.detail_two_songs)
               (Samples.always Samples.status_ok) in
  let song5 := [("id", PInt 5); ("name", PStr "five")] in
  let song6 := [("id", PInt 6); ("name", PStr "six")] in
  let res := [("songs", PList [PDict song5; PDict song6]);
              ("privileges", PList [PDict [("id", PInt 5); ("pl", PInt 320000)]]);
              ("code", PInt 200)] in
  (DataSource.ncm_request env (DataSource.GetTrackDetail env) ([9], []) = Ok res /\
   dict_get "songs" res = Some (PList [PDict song5; PDict song6])) /\
  exists out,
    DataSource.get_track_info env [9] [] = Ok out /\
    length out = length [PDict song5; PDict song6] /\
    forall (i : nat) s, out !! i = Some s ->
      [PDict song5; PDict song6] !! i = Some (PDict (DataSource.song_fields s)) /\
      dict_get "privilege" (DataSource.song_fields s) = None /\
      (forall sid, dict_get "id" (DataSource.song_fields s) = Some (PInt sid) ->
         DataSource.id (DataSource.privilege s) = sid).
Proof.
  cbv zeta. split; [split; reflexivity|].
  eexists. split; [reflexivity|].
  apply (get_track_info_follows_response
           (Samples.remote Samples.config_guest (Ok Samples.detail_two_songs)
              (Samples.always Samples.status_ok))
           [9] []
           [("songs", PList [PDict [("id", PInt 5); ("name", PStr "five")];
                             PDict [("id", PInt 6); ("name", PStr "six")]]);
            ("privileges", PList [PDict [("id", PInt 5); ("pl", PInt 320000)]]);
            ("code", PInt 200)]);
    reflexivity.
Defined.

Lemma get_track_info_last_record_wins_witness :
  let env := Samples.remote Samples.config_guest (Ok Samples.detail_two_records)
               (Samples.always Samples.status_ok) in
  let song5 := [("id", PInt 5); ("name", PStr "five")] in
  let first := {| DataSource.id := 5; DataSource.pl := 128000 |} in
  let last := {| DataSource.id := 5; DataSource.pl := 999000 |} in
  (DataSource.map_result (DataSource.parse_Privilege env)
     [PDict [("id", PInt 5); ("pl", PInt 128000)];
      PDict [("id", PInt 5); ("pl", PInt 999000)]]
   = Ok ([first] ++ last :: [])%list /\
   (forall z, z ∈ @nil DataSource.Privilege -> DataSource.id z <> DataSource.id last)) /\
  exists out,
    DataSource.get_track_info env [5] [] = Ok out /\
    out !! 0%nat
    = Some {| DataSource.song_fields := song5; DataSource.privilege := last |}.
Proof.
  cbv zeta.
  assert (Hno : forall z : DataSource.Privilege,
            z ∈ @nil DataSource.Privilege ->
            DataSource.id z
            <> DataSource.id {| DataSource.id := 5; DataSource.pl := 999000 |}).
  { intros z Hz. now apply elem_of_nil in Hz. }
  split; [split; [reflexivity | exact Hno]|].
  eexists. split; [reflexivity|].
  apply (get_track_info_last_record_wins
           (Samples.remote Samples.config_guest (Ok Samples.detail_two_records)
              (Samples.always Samples.status_ok))
           [5] []
           [("songs", PList [PDict [("id", PInt 5); ("name", PStr "five")]]);
            ("privileges", PList [PDict [("id", PInt 5); ("pl", PInt 128000)];
                                  PDict [("id", PInt 5); ("pl", PInt 999000)]]);
            ("code", PInt 200)]
           [PDict [("id", PInt 5); ("pl", PInt 128000)];
            PDict [("id", PInt 5); ("pl", PInt 999000)]]
           [ {| DataSource.id := 5; DataSource.pl := 128000 |} ]
           {| DataSource.id := 5; DataSource.pl := 999000 |}
           []
           [PDict [("id", PInt 5); ("name", PStr "five")]]
           _ 0%nat [("id", PInt 5); ("name", PStr "five")]);
    try reflexivity.
  exact Hno.
Defined.

Lemma get_track_info_missing_keys_witness :
  let env := Samples.remote Samples.config_guest (Ok Samples.detail_bare)
               (Samples.always Samples.status_ok) in
  let res := [("code", PInt 200)] in
  DataSource.ncm_request env (DataSource.GetTrackDetail env) ([5], []) = Ok res /\
  (dict_get "privileges" res = None ->
     DataSource.get_track_info env [5] [] = Raise (KeyError "privileges")) /\
  (dict_get "privileges" res = Some (PList []) ->
   dict_get "songs" res = None ->
     DataSource.get_track_info env [5] [] = Raise (KeyError "songs")).
Proof.
  cbv zeta. split; [reflexivity|].
  apply (get_track_info_missing_keys
           (Samples.remote Samples.config_guest (Ok Samples.detail_bare)
              (Samples.always Samples.status_ok))
           [5] [] [("code", PInt 200)]).
  reflexivity.
Defined.

(** The bare answer on the sample service. *)
Example get_track_info_bare_sample :
  DataSource.get_track_info
    (Samples.remote Samples.config_guest (Ok Samples.detail_bare)
       (Samples.always Samples.status_ok)) [5] []
  = Raise (KeyError "privileges").
Proof. vm_compute. reflexivity. Qed.

(** ** The login sequence as a whole *)

Section LoginWhole.

Import DataSource.

Variable env : Env.

(** The three ways through the head of [login]. *)
Lemma establish_cases retry w retry1 w1 :
  establish env retry w = Ok (retry1, w1) ->
  (exists text s,
     session_file w = Some text /\
     LoadSessionFromString env text = Ok s /\
     retry1 = retry /\
     w1 = SetCurrentSession s (record EvLoadSessionFromString w)) \/
  (session_file w = None /\ retry1 = false /\ has_credentials env = true /\
   exists e s,
     (e = EvLoginViaCellphone \/ e = EvLoginViaEmail) /\
     w1 = write_session_file (DumpSessionAsString env s)
            (SetCurrentSession s (record e w))) \/
  (session_file w = None /\ retry1 = false /\ has_credentials env = false /\
   exists s,
     w1 = SetCurrentSession s (record EvLoginViaAnonymousAccount w)).
Proof.
  unfold establish. destruct (session_file w) as [text|] eqn:Ef.
  - destruct (LoadSessionFromString env text) as [s|] eqn:El; cbn; [|discriminate].
    intros [= <- <-]. left. now exists text, s.
  - intros Hrun. right. destruct (has_credentials env).
    + left.
      destruct (truthy_opt_str (ncm_phone (config env)));
        unfold run_login in Hrun; cbn [bind] in Hrun.
      * destruct (LoginViaCellphone env _ _ _ _ _) as [s|];
          cbn in Hrun; [|discriminate].
        injection Hrun as <- <-. repeat split.
        exists EvLoginViaCellphone, s. now split; [left|].
      * destruct (LoginViaEmail env _ _ _ _) as [s|];
          cbn in Hrun; [|discriminate].
        injection Hrun as <- <-. repeat split.
        exists EvLoginViaEmail, s. now split; [right|].
    + right. unfold run_login in Hrun.
      destruct (LoginViaAnonymousAccount env _) as [s|];
        cbn in Hrun; [|discriminate].
      injection Hrun as <- <-. repeat split. now exists s.
Qed.

(** Every way [login] can end: the head raises; the first verification
    passes; it fails without a retry; or it fails with one, and then the
    same three ends for the second call, which has no session file to
    restore and no retry left. *)
Lemma login_outcomes n retry w r w' :
  login env (S (S n)) retry w = Some (r, w') ->
  (exists e, establish env retry w = Raise e /\ r = Raise e /\ w' = w) \/
  (exists retry1 w1,
     establish env retry w = Ok (retry1, w1) /\ verified env w1 = true /\
     r = Ok tt /\ w' = record EvGetCurrentLoginStatus w1) \/
  (exists w1,
     establish env retry w = Ok (false, w1) /\ verified env w1 = false /\
     r = Raise login_state_error /\
     w' = unlink_if_exists (record EvGetCurrentLoginStatus w1)) \/
  (exists w1 w3,
     establish env retry w = Ok (true, w1) /\ verified env w1 = false /\
     w3 = unlink_if_exists (record EvGetCurrentLoginStatus w1) /\
     ((exists e, establish env false w3 = Raise e /\ r = Raise e /\ w' = w3) \/
      (exists w4,
         establish env false w3 = Ok (false, w4) /\ verified env w4 = true /\
         r = Ok tt /\ w' = record EvGetCurrentLoginStatus w4) \/
      (exists w4,
         establish env false w3 = Ok (false, w4) /\ verified env w4 = false /\
         r = Raise login_state_error /\
         w' = unlink_if_exists (record EvGetCurrentLoginStatus w4)))).
Proof.
  rewrite login_unfold.
  destruct (establish env retry w) as [[retry1 w1]|e] eqn:E.
  - destruct (verified env w1) eqn:Hv.
    + intros [= <- <-]. right; left. now exists retry1, w1.
    + destruct retry1.
      * rewrite login_no_retry_cases. intros Hsecond.
        right; right; right.
        exists w1, (unlink_if_exists (record EvGetCurrentLoginStatus w1)).
        split; [easy|]. split; [easy|]. split; [easy|].
        destruct (establish env false _) as [[retry2 w4]|e] eqn:E2.
        -- pose proof (establish_no_retry env _ _ _ E2) as ->.
           destruct (verified env w4) eqn:Hv4; injection Hsecond as <- <-.
           ++ right; left. now exists w4.
           ++ right; right. now exists w4.
        -- injection Hsecond as <- <-. left. now exists e.
      * intros [= <- <-]. right; right; left. now exists w1.
  - intros [= <- <-]. left. now exists e.
Qed.


(** X11: after a successful [login] the session file is the one that was
    restored, or, when no restored session was accepted, the serialised
    current session if an account is configured and no file at all for a
    guest. *)
Theorem login_success_session_file n retry w w' :
  login env (S (S n)) retry w = Some (Ok tt, w') ->
  (is_Some (session_file w) /\ session_file w' = session_file w) \/
  (has_credentials env = true /\
   session_file w' = Some (DumpSessionAsString env (current_session w'))) \/
  (has_credentials env = false /\ session_file w' = None).
Proof.
  intros Hrun.
  assert (Hfirst : forall r0 w0 r1 w1,
            establish env r0 w0 = Ok (r1, w1) ->
            (is_Some (session_file w0) /\
             session_file (record EvGetCurrentLoginStatus w1) = session_file w0) \/
            (session_file w0 = None /\
             ((has_credentials env = true /\
               session_file (record EvGetCurrentLoginStatus w1)
               = Some (DumpSessionAsString env
                         (current_session (record EvGetCurrentLoginStatus w1)))) \/
              (has_credentials env = false /\
               session_file (record EvGetCurrentLoginStatus w1) = None)))).
  { intros r0 w0 r1 w1 E.
    destruct (establish_cases _ _ _ _ E)
      as [(text & s & Hf & _ & _ & ->)
         |[(Hf & _ & Hc & e & s & _ & ->)|(Hf & _ & Hc & s & ->)]].
    - left. cbn. split; [rewrite Hf; eauto | reflexivity].
    - right. split; [exact Hf|]. left. split; [exact Hc | reflexivity].
    - right. split; [exact Hf|]. right. split; [exact Hc | exact Hf]. }
  destruct (login_outcomes _ _ _ _ _ Hrun)
    as [(e & _ & [=] & _)
       |[(r1 & w1 & E & _ & _ & ->)
        |[(w1 & _ & _ & [=] & _)
         |(w1 & w3 & _ & _ & Hw3 &
             [(e & _ & [=] & _)
             |[(w4 & E & _ & _ & ->)|(w4 & _ & _ & [=] & _)]])]]].
  - destruct (Hfirst _ _ _ _ E) as [H1|[_ H2]]; [now left | now right].
  - destruct (Hfirst _ _ _ _ E) as [[[x Hx] _]|[_ H2]]; [|now right].
    rewrite Hw3, session_file_unlink in Hx. discriminate.
Qed.

(** X12: a session file that [LoadSessionFromString] cannot read stops [login]
    at once with that exception: no status call, no retry, and the file
    stays where it is. *)
Theorem login_unreadable_session_file n retry w text e :
  session_file w = Some text ->
  LoadSessionFromString env text = Raise e ->
  login env (S n) retry w = Some (Raise e, w).
Proof.
  intros Hf Hl. rewrite login_unfold. unfold establish. rewrite Hf, Hl.
  reflexivity.
Qed.

(** X14: when [login] raises, no session file is left behind, unless the
    exception came out of the head of the first call (reading the file or
    the remote login), in which case nothing has been changed at all. *)
Theorem login_failure_session_file n retry w e w' :
  login env (S (S n)) retry w = Some (Raise e, w') ->
  session_file w' = None \/
  (establish env retry w = Raise e /\ w' = w).
Proof.
  intros Hrun.
  destruct (login_outcomes _ _ _ _ _ Hrun)
    as [(e0 & E & [= <-] & ->)
       |[(r1 & w1 & _ & _ & [=] & _)
        |[(w1 & _ & _ & _ & ->)
         |(w1 & w3 & _ & _ & Hw3 &
             [(e0 & _ & _ & ->)
             |[(w4 & _ & _ & [=] & _)|(w4 & _ & _ & _ & ->)]])]]].
  - now right.
  - left. apply session_file_unlink.
  - left. rewrite Hw3. apply session_file_unlink.
  - left. apply session_file_unlink.
Qed.

Lemma count_event_set_session e s w :
  count_event e (SetCurrentSession s w) = count_event e w.
Proof. reflexivity. Qed.

Lemma count_event_write e text w :
  count_event e (write_session_file text w)
  = (if decide (EvWriteSession = e) then S (count_event e w) else count_event e w).
Proof.
  unfold write_session_file. rewrite count_event_record. reflexivity.
Qed.

(** What the head of [login] adds to the log. *)
Lemma establish_counts retry w retry1 w1 :
  establish env retry w = Ok (retry1, w1) ->
  count_event EvGetCurrentLoginStatus w1 = count_event EvGetCurrentLoginStatus w /\
  (logins w1 <= S (logins w))%nat /\
  (is_Some (session_file w) -> logins w1 = logins w) /\
  (count_event EvWriteSession w1 <= S (count_event EvWriteSession w))%nat /\
  (is_Some (session_file w) ->
   count_event EvWriteSession w1 = count_event EvWriteSession w).
Proof.
  intros E. unfold logins.
  destruct (establish_cases _ _ _ _ E)
    as [(text & s & Hf & _ & _ & ->)
       |[(Hf & _ & Hc & e & s & [-> | ->] & ->)|(Hf & _ & Hc & s & ->)]];
    rewrite ?count_event_write, ?count_event_set_session, ?count_event_record;
    repeat case_decide; try congruence;
    repeat split; try lia;
    intros [x Hx]; congruence.
Qed.

(** X13: [login] always ends, after at most two status calls, at most one
    completed remote login and at most one write of the session file. *)
Theorem login_call_bounds n retry w :
  exists r w',
    login env (S (S n)) retry w = Some (r, w') /\
    (count_event EvGetCurrentLoginStatus w'
     <= count_event EvGetCurrentLoginStatus w + 2)%nat /\
    (logins w' <= logins w + 1)%nat /\
    (count_event EvWriteSession w' <= count_event EvWriteSession w + 1)%nat.
Proof.
  destruct (login_total env n retry w) as [[r w'] Hrun].
  exists r, w'. split; [exact Hrun|].
  assert (Hrec : forall x, count_event EvGetCurrentLoginStatus (record EvGetCurrentLoginStatus x)
                           = S (count_event EvGetCurrentLoginStatus x)
                           /\ logins (record EvGetCurrentLoginStatus x) = logins x
                           /\ count_event EvWriteSession (record EvGetCurrentLoginStatus x)
                              = count_event EvWriteSession x).
  { intros x. unfold logins. rewrite !count_event_record.
    repeat case_decide; try congruence. now repeat split. }
  assert (Hunl : forall x, count_event EvGetCurrentLoginStatus (unlink_if_exists x)
                           = count_event EvGetCurrentLoginStatus x
                           /\ logins (unlink_if_exists x) = logins x
                           /\ count_event EvWriteSession (unlink_if_exists x)
                              = count_event EvWriteSession x).
  { intros x. unfold logins. now rewrite !count_event_unlink by discriminate. }
  destruct (login_outcomes _ _ _ _ _ Hrun)
    as [(e & _ & _ & ->)
       |[(r1 & w1 & E & _ & _ & ->)
        |[(w1 & E & _ & _ & ->)
         |(w1 & w3 & E & _ & Hw3 &
             [(e & _ & _ & ->)
             |[(w4 & E4 & _ & _ & ->)|(w4 & E4 & _ & _ & ->)]])]]].
  - repeat split; lia.
  - destruct (establish_counts _ _ _ _ E) as (Hs & Hl & _ & Hw & _).
    destruct (Hrec w1) as (-> & -> & ->). repeat split; lia.
  - destruct (establish_counts _ _ _ _ E) as (Hs & Hl & _ & Hw & _).
    destruct (Hunl (record EvGetCurrentLoginStatus w1)) as (-> & -> & ->).
    destruct (Hrec w1) as (-> & -> & ->). repeat split; lia.
  - assert (Hrestored : is_Some (session_file w)).
    { destruct (establish_spec env _ _ _ _ E) as [Hr _].
      symmetry in Hr. apply andb_true_iff in Hr as [_ Hr].
      now apply bool_decide_eq_true in Hr. }
    destruct (establish_counts _ _ _ _ E) as (Hs & _ & Hl & _ & Hw).
    specialize (Hl Hrestored). specialize (Hw Hrestored). subst w3.
    destruct (Hunl (record EvGetCurrentLoginStatus w1)) as (-> & -> & ->).
    destruct (Hrec w1) as (-> & -> & ->). repeat split; lia.
  - assert (Hrestored : is_Some (session_file w)).
    { destruct (establish_spec env _ _ _ _ E) as [Hr _].
      symmetry in Hr. apply andb_true_iff in Hr as [_ Hr].
      now apply bool_decide_eq_true in Hr. }
    destruct (establish_counts _ _ _ _ E) as (Hs & _ & Hl & _ & Hw).
    specialize (Hl Hrestored). specialize (Hw Hrestored).
    destruct (establish_counts _ _ _ _ E4) as (Hs4 & Hl4 & _ & Hw4 & _).
    subst w3.
    destruct (Hunl (record EvGetCurrentLoginStatus w1)) as (Hu1 & Hu2 & Hu3).
    destruct (Hrec w1) as (Hr1 & Hr2 & Hr3).
    destruct (Hrec w4) as (-> & -> & ->). repeat split; lia.
  - assert (Hrestored : is_Some (session_file w)).
    { destruct (establish_spec env _ _ _ _ E) as [Hr _].
      symmetry in Hr. apply andb_true_iff in Hr as [_ Hr].
      now apply bool_decide_eq_true in Hr. }
    destruct (establish_counts _ _ _ _ E) as (Hs & _ & Hl & _ & Hw).
    specialize (Hl Hrestored). specialize (Hw Hrestored).
    destruct (establish_counts _ _ _ _ E4) as (Hs4 & Hl4 & _ & Hw4 & _).
    subst w3.
    destruct (Hunl (record EvGetCurrentLoginStatus w1)) as (Hu1 & Hu2 & Hu3).
    destruct (Hrec w1) as (Hr1 & Hr2 & Hr3).
    destruct (Hunl (record EvGetCurrentLoginStatus w4)) as (-> & -> & ->).
    destruct (Hrec w4) as (-> & -> & ->). repeat split; lia.
Qed.

End LoginWhole.


Lemma login_success_session_file_witness :
  let env := Samples.remote Samples.config_phone (Ok Samples.detail_failed)
               Samples.rejects_stale in
  let w' := {| DataSource.session_file := Some "fresh";
               DataSource.current_session := Samples.fresh_session;
               DataSource.events :=
                 [ DataSource.EvGetCurrentLoginStatus;
                   DataSource.EvWriteSession;
                   DataSource.EvLoginViaCellphone;
                   DataSource.EvUnlink;
                   DataSource.EvGetCurrentLoginStatus;
                   DataSource.EvLoadSessionFromString ] |} in
  DataSource.login env 2 true Samples.world_stale = Some (Ok tt, w') /\
  ((is_Some (DataSource.session_file Samples.world_stale) /\
    DataSource.session_file w' = DataSource.session_file Samples.world_stale) \/
   (DataSource.has_credentials env = true /\
    DataSource.session_file w'
    = Some (DataSource.DumpSessionAsString env (DataSource.current_session w'))) \/
   (DataSource.has_credentials env = false /\ DataSource.session_file w' = None)).
Proof.
  cbv zeta. split; [vm_compute; reflexivity|].
  apply (login_success_session_file
           (Samples.remote Samples.config_phone (Ok Samples.detail_failed)
              Samples.rejects_stale)
           0 true Samples.world_stale).
  vm_compute. reflexivity.
Defined.

Lemma login_failure_session_file_witness :
  let env := Samples.remote Samples.config_guest (Ok Samples.detail_failed)
               (Samples.always Samples.status_no_account) in
  let w' := {| DataSource.session_file := None;
               DataSource.current_session := Samples.guest_session;
               DataSource.events :=
                 [ DataSource.EvGetCurrentLoginStatus;
                   DataSource.EvLoginViaAnonymousAccount;
                   DataSource.EvUnlink;
                   DataSource.EvGetCurrentLoginStatus;
                   DataSource.EvLoadSessionFromString ] |} in
  DataSource.login env 2 true Samples.world_stale
  = Some (Raise DataSource.login_state_error, w') /\
  (DataSource.session_file w' = None \/
   (DataSource.establish env true Samples.world_stale
    = Raise DataSource.login_state_error /\ w' = Samples.world_stale)).
Proof.
  cbv zeta. split; [vm_compute; reflexivity|].
  apply (login_failure_session_file
           (Samples.remote Samples.config_guest (Ok Samples.detail_failed)
              (Samples.always Samples.status_no_account))
           0 true Samples.world_stale).
  vm_compute. reflexivity.
Defined.

Lemma login_unreadable_session_file_witness :
  let env := Samples.remote_unreadable Samples.config_phone
               (Samples.always Samples.status_ok) in
  (DataSource.session_file Samples.world_stale = Some "stale" /\
   DataSource.LoadSessionFromString env "stale"
   = Raise (OtherError "bad session text")) /\
  DataSource.login env 2 true Samples.world_stale
  = Some (Raise (OtherError "bad session text"), Samples.world_stale).
Proof.
  cbv zeta. split; [split; reflexivity|].
  apply (login_unreadable_session_file
           (Samples.remote_unreadable Samples.config_phone
              (Samples.always Samples.status_ok))
           1 true Samples.world_stale "stale");
    reflexivity.
Defined.

(** ** The song searcher as a whole *)

Section SongWhole.

Import DataSource SongProvider.

Variable env : Env.

(** X16: what [search_by_id] lets through: an exception it raises is the one
    [from_id] raised and is never a [ValueError]; a song it returns is
    the first of the detail answer, which [from_id] found true. *)
Theorem search_by_id_results arg_id :
  (forall e, search_by_id env arg_id = Raise e ->
     from_id env arg_id = Raise e /\ is_ValueError e = false) /\
  (forall s, search_by_id env arg_id = Ok (Some s) ->
     exists rest,
       get_track_info env [arg_id] [] = Ok (info s :: rest) /\
       Song_bool env (info s) = true).
Proof.
  unfold search_by_id. split.
  - intros e. destruct (from_id env arg_id) as [s|e0]; [discriminate|].
    destruct (is_ValueError e0) eqn:Ev; [discriminate|].
    intros [= <-]. now split.
  - intros s. destruct (from_id env arg_id) as [s0|e0] eqn:Ef.
    + intros [= <-]. unfold from_id in Ef.
      destruct (get_track_info env [arg_id] []) as [[|x rest]|e];
        cbn in Ef; try discriminate.
      destruct (Song_bool env x) eqn:Eb; cbn in Ef; [|discriminate].
      injection Ef as <-. now exists rest.
    + destruct (is_ValueError e0); discriminate.
Qed.

Lemma build_row_length ix : length (build_row env ix) = 5%nat.
Proof. now destruct ix. Qed.

(** X17: [_build_search_resp] raises [ValueError] for a result without songs,
    be the list missing or empty; otherwise it echoes the page number and
    the total count, and its table has one row per song, each with one
    cell for each of the five heads. *)
Theorem build_search_resp_shape resp page :
  match songs resp with
  | None | Some [] =>
      _build_search_resp env resp page
      = Raise (ValueError "No song in raw response")
  | Some l =>
      exists r,
        _build_search_resp env resp page = Ok r /\
        resp_page r = page /\
        resp_total r = songCount resp /\
        resp_calling r = CALLING /\
        length (table_heads (resp_table r)) = 5%nat /\
        length (table_rows (resp_table r)) = length l /\
        Forall (fun row => length row = length (table_heads (resp_table r)))
          (table_rows (resp_table r))
  end.
Proof.
  unfold _build_search_resp. destruct (songs resp) as [[|x l]|]; try reflexivity.
  eexists. split; [reflexivity|]. cbn [resp_page resp_total resp_calling resp_table
                                        table_heads table_rows].
  repeat (split; [reflexivity|]). split.
  - now rewrite length_map, enumerate_length.
  - apply Forall_forall. intros row Hrow.
    apply list_elem_of_fmap in Hrow as (ix & -> & _).
    now rewrite build_row_length.
Qed.

End SongWhole.

Lemma search_by_id_transport_failure_witness :
  let env := Samples.remote Samples.config_guest (Ok Samples.detail_failed)
               (Samples.always Samples.status_ok) in
  let d := [("code", PInt 400); ("msg", PStr "bad request")] in
  (DataSource.api_call (DataSource.GetTrackDetail env) ([5], []) = Ok (PDict d) /\
   dict_get "code" d = Some (PInt 400) /\
   eq_int (PInt 400) 200 = false) /\
  SongProvider.search_by_id env 5
  = Raise (RuntimeError
             (DataSource.request_failed_msg env
                (DataSource.api_name (DataSource.GetTrackDetail env)) (PDict d))).
Proof.
  cbv zeta. split; [repeat split|].
  apply (search_by_id_transport_failure
           (Samples.remote Samples.config_guest (Ok Samples.detail_failed)
              (Samples.always Samples.status_ok))
           5 [("code", PInt 400); ("msg", PStr "bad request")] (PInt 400));
    reflexivity.
Defined.

(** A result without songs, and the sample page. *)
Example build_search_resp_samples :
  SongProvider._build_search_resp
    (Samples.remote Samples.config_guest (Ok Samples.detail_failed)
       (Samples.always Samples.status_ok))
    {| DataSource.songs := Some []; DataSource.songCount := 0 |} 1
  = Raise (ValueError "No song in raw response")
  /\
  (SongProvider.resp_total
     <$> (match SongProvider._build_search_resp
                  (Samples.remote Samples.config_guest (Ok Samples.detail_failed)
                     (Samples.always Samples.status_ok))
                  Samples.result_page 3 with
          | Ok r => Some r
          | Raise _ => None
          end)) = Some 42.
Proof. split; vm_compute; reflexivity. Qed.
